(** * beautifier.py: text/code stream normalisation (cheat.sh)

    A shallow embedding of [lib/beautifier.py].  Python 2 byte strings are
    [string]s, the integer line types of the classifier are [Z], Python lists
    are [list]s indexed with stdpp's lookup and insert, and the options
    dictionary is a [gmap].  The external collaborators (textwrap, the vim
    process, the language table, md5 and the redis client) are parameters of
    the development. *)

From Stdlib Require Import Ascii String ZArith DecimalString.
From stdpp Require Import base list strings gmap.
From Equations Require Import Equations.

Local Open Scope Z_scope.

(** ** Python 2 [str] methods used by the module *)

Module PyStr.

Definition LF : ascii := "010"%char.
Definition CR : ascii := "013"%char.

(** [str.isspace] on one byte in the C locale: space, \t, \n, \v, \f, \r. *)
Definition isspace (c : ascii) : bool :=
  let n := N_of_ascii c in ((9 <=? n) && (n <=? 13) || (n =? 32))%N.

Definition isdigit (c : ascii) : bool :=
  let n := N_of_ascii c in ((48 <=? n) && (n <=? 57))%N.

Fixpoint lstrip_by (p : ascii -> bool) (s : string) : string :=
  match s with
  | EmptyString => EmptyString
  | String c s' => if p c then lstrip_by p s' else s
  end.

Fixpoint rstrip_by (p : ascii -> bool) (s : string) : string :=
  match s with
  | EmptyString => EmptyString
  | String c s' =>
      match rstrip_by p s' with
      | EmptyString => if p c then EmptyString else String c EmptyString
      | r => String c r
      end
  end.

(** [s.strip()] *)
Definition strip (s : string) : string := rstrip_by isspace (lstrip_by isspace s).

(** [s.rstrip(chars)] *)
Definition rstrip_chars (chars : list ascii) (s : string) : string :=
  rstrip_by (fun c => bool_decide (c ∈ chars)) s.

(** [s.startswith(p)] *)
Definition startswith (p s : string) : bool := String.prefix p s.

(** [s.endswith(p)] *)
Definition endswith (p s : string) : bool :=
  String.prefix (String.rev p) (String.rev s).

(** [c * n] for a one-character string *)
Fixpoint replicate_char (n : nat) (c : ascii) : string :=
  match n with
  | O => EmptyString
  | S n' => String c (replicate_char n' c)
  end.

(** [s[n:]] for [0 <= n] *)
Fixpoint drop_chars (n : nat) (s : string) : string :=
  match n, s with
  | O, _ => s
  | S n', String _ s' => drop_chars n' s'
  | S _, EmptyString => EmptyString
  end.

(** [sep.join(ls)] *)
Definition join (sep : string) (ls : list string) : string := String.concat sep ls.

(** [s.splitlines()] of a byte string: a line ends at \n, \r or \r\n, line
    breaks are dropped, and a final line break opens no further line. *)
Fixpoint splitlines (s : string) : list string :=
  match s with
  | EmptyString => []
  | String c s' =>
      if Ascii.eqb c CR then
        match s' with
        | String c' s'' =>
            if Ascii.eqb c' LF then EmptyString :: splitlines s''
            else EmptyString :: splitlines s'
        | EmptyString => [EmptyString]
        end
      else if Ascii.eqb c LF then EmptyString :: splitlines s'
      else
        match splitlines s' with
        | [] => [String c EmptyString]
        | l :: ls => String c l :: ls
        end
  end.

(** [re.match(r'[0-9]+\.', s)] as a truth value *)
Definition match_ordered_marker (s : string) : bool :=
  match s with
  | String c s' =>
      isdigit c &&
      match lstrip_by isdigit s' with
      | String d _ => Ascii.eqb d "."%char
      | EmptyString => false
      end
  | EmptyString => false
  end.

(** ["%s" % n] for an integer *)
Definition str_of_int (n : Z) : string := NilZero.string_of_int (Z.to_int n).

End PyStr.

Import PyStr.

(** ** itertools.groupby

    Consecutive elements with equal keys form one group; the result lists the
    groups in order, each with the key of its first element. *)

Section Groupby.
Context {A K : Type} (eqb : K -> K -> bool) (key : A -> K).

Fixpoint groupby (l : list A) : list (K * list A) :=
  match l with
  | [] => []
  | x :: l' =>
      match groupby l' with
      | (k, g) :: gs =>
          if eqb (key x) k then (key x, x :: g) :: gs
          else (key x, [x]) :: (k, g) :: gs
      | [] => [(key x, [x])]
      end
  end.
End Groupby.

(** ** _cleanup_lines *)

Definition is_blank (line : string) : bool := bool_decide (strip line = "").

(** The index reached by [while start < len(lines) and lines[start].strip()
    == '': start += 1], counted from the head of the list. *)
Fixpoint first_nonblank (lines : list string) : nat :=
  match lines with
  | line :: lines' => if is_blank line then S (first_nonblank lines') else O
  | [] => O
  end.

(** [end + 1] after [while end >= 0 and lines[end].strip() == '': end -= 1],
    started at [end = len(lines) - 1]; the argument is [end + 1]. *)
Fixpoint last_nonblank (lines : list string) (end1 : nat) : nat :=
  match end1 with
  | O => O
  | S e => if is_blank (lines !!! e) then last_nonblank lines e else end1
  end.

Definition collapse_blank (lines : list string) : list string :=
  concat (map (fun x : bool * list string => if x.1 then x.2 else [""])
              (groupby Bool.eqb (fun x => negb (is_blank x)) lines)).

Definition _cleanup_lines (lines : list string) : list string :=
  if bool_decide (lines = []) then lines else
  (* remove empty lines from the beginning *)
  let start := first_nonblank lines in
  let lines := drop start lines in
  if bool_decide (lines = []) then lines else
  (* remove empty lines from the end *)
  let end1 := last_nonblank lines (length lines) in
  let lines := take end1 lines in
  if bool_decide (lines = []) then lines else
  (* remove repeating empty lines *)
  collapse_blank lines.

(** ** _classify_lines *)

Definition _line_type (line : string) : Z :=
  if bool_decide (strip line = "") then -1
  else if startswith "* " (strip line) || match_ordered_marker (strip line) then 0
  else if startswith "   " line then 1
  else 0.

(** pass 2: adding empty code lines to the code.  The assignments
    [changed = True] of this pass are dead: pass 3 sets the flag before it
    reads it. *)
Definition absorb_fwd (line_types : list Z) (i : nat) : list Z :=
  if (line_types !!! i =? 1) && (line_types !!! (i + 1)%nat =? -1)
  then <[(i + 1)%nat := -2]> line_types
  else line_types.

Definition absorb_bwd (line_types : list Z) (i : nat) : list Z :=
  if (line_types !!! i =? -1) && (line_types !!! (i + 1)%nat =? 1)
  then <[i := -2]> line_types
  else line_types.

(** [range(n - 1)] for [n = len(line_types)]; empty when [n] is 0. *)
Definition range_pred (n : nat) : list nat := seq 0 (n - 1).

Definition pass2 (line_types : list Z) : list Z :=
  let line_types := foldl absorb_fwd line_types (range_pred (length line_types)) in
  let line_types := foldl absorb_bwd line_types (rev (range_pred (length line_types))) in
  map (fun x => if x =? -2 then 1 else x) line_types.

(** pass 3: one run of the body of [while changed], on the pair of the
    label array and the [changed] flag. *)
Definition text_fwd (st : list Z * bool) (i : nat) : list Z * bool :=
  let '(line_types, changed) := st in
  if (line_types !!! i =? 0) && (line_types !!! (i + 1)%nat =? -1)
  then (<[(i + 1)%nat := 0]> line_types, true)
  else (line_types, changed).

Definition text_bwd (st : list Z * bool) (i : nat) : list Z * bool :=
  let '(line_types, changed) := st in
  if (line_types !!! i =? -1) && (line_types !!! (i + 1)%nat =? 0)
  then (<[i := 0]> line_types, true)
  else (line_types, changed).

Definition pass3_body (line_types : list Z) : list Z * bool :=
  let st := foldl text_fwd (line_types, false) (range_pred (length line_types)) in
  foldl text_bwd st (rev (range_pred (length st.1))).

Definition count_undefined (line_types : list Z) : nat :=
  length (filter (fun x => x = -1) line_types).

(** Every write of pass 3 resolves one undefined label, which is what makes
    the [while changed] loop terminate. *)

Lemma lookup_total_undefined (l : list Z) (j : nat) :
  (l !!! j =? -1) = true -> l !! j = Some (-1).
Proof.
  intros H. apply Z.eqb_eq in H.
  destruct (l !! j) as [x|] eqn:E.
  - apply list_lookup_total_correct in E. congruence.
  - rewrite list_lookup_total_alt, E in H. discriminate H.
Qed.

Lemma count_undefined_insert (l : list Z) (j : nat) (v : Z) :
  l !! j = Some (-1) -> v <> -1 ->
  S (count_undefined (<[j := v]> l)) = count_undefined l.
Proof.
  unfold count_undefined. revert j.
  induction l as [|x l IH]; intros [|j] Hj Hv; simplify_eq/=.
  - rewrite !filter_cons. repeat case_decide; simpl; congruence.
  - rewrite !filter_cons. case_decide; simpl; rewrite <- (IH j); auto.
Qed.

Definition pass3_inv (l0 : list Z) (st : list Z * bool) : Prop :=
  length st.1 = length l0 /\
  (count_undefined st.1 <= count_undefined l0)%nat /\
  (st.2 = true -> (count_undefined st.1 < count_undefined l0)%nat).

Lemma text_fwd_inv l0 st i : pass3_inv l0 st -> pass3_inv l0 (text_fwd st i).
Proof.
  destruct st as [l c]. intros (Hlen & Hle & Hlt). unfold text_fwd.
  destruct (_ && _) eqn:E; [|done].
  apply andb_prop in E as [_ E]. apply lookup_total_undefined in E.
  pose proof (count_undefined_insert l (i + 1) 0 E ltac:(done)) as Hc.
  unfold pass3_inv; simpl in *. rewrite length_insert. repeat split; try lia.
Qed.

Lemma text_bwd_inv l0 st i : pass3_inv l0 st -> pass3_inv l0 (text_bwd st i).
Proof.
  destruct st as [l c]. intros (Hlen & Hle & Hlt). unfold text_bwd.
  destruct (_ && _) eqn:E; [|done].
  apply andb_prop in E as [E _]. apply lookup_total_undefined in E.
  pose proof (count_undefined_insert l i 0 E ltac:(done)) as Hc.
  unfold pass3_inv; simpl in *. rewrite length_insert. repeat split; try lia.
Qed.

Lemma foldl_inv {St Ix : Type} (P : St -> Prop) (f : St -> Ix -> St)
    (ixs : list Ix) (s : St) :
  (forall s i, P s -> P (f s i)) -> P s -> P (foldl f s ixs).
Proof. intros Hf. revert s. induction ixs; simpl; auto. Qed.

Lemma pass3_body_inv (l : list Z) : pass3_inv l (pass3_body l).
Proof.
  unfold pass3_body. apply foldl_inv; [intros; by apply text_bwd_inv|].
  apply foldl_inv; [intros; by apply text_fwd_inv|].
  unfold pass3_inv; simpl. repeat split; [lia | discriminate].
Qed.

Lemma pass3_body_decreases (l l' : list Z) :
  pass3_body l = (l', true) -> (count_undefined l' < count_undefined l)%nat.
Proof.
  intros H. destruct (pass3_body_inv l) as (_ & _ & Hlt).
  rewrite H in Hlt. by apply Hlt.
Qed.

Definition inspect {A : Type} (a : A) : {b : A | a = b} := exist _ a eq_refl.

(** pass 3: fixing undefined line types (-1); [changed] starts [True], so
    the body runs at least once and again after every run that changed a
    label. *)
Equations pass3 (line_types : list Z) : list Z
  by wf (count_undefined line_types) lt :=
  pass3 line_types with inspect (pass3_body line_types) := {
    | exist _ (line_types', true) _ => pass3 line_types'
    | exist _ (line_types', false) _ => line_types' }.
Next Obligation. by apply pass3_body_decreases. Qed.

(** The number of times the body of [while changed] runs: [pass3] with a
    counter. *)
Equations pass3_scans (line_types : list Z) : nat
  by wf (count_undefined line_types) lt :=
  pass3_scans line_types with inspect (pass3_body line_types) := {
    | exist _ (line_types', true) _ => S (pass3_scans line_types')
    | exist _ (_, false) _ => 1%nat }.
Next Obligation. by apply pass3_body_decreases. Qed.

Definition _classify_lines (lines : list string) : list Z :=
  let line_types := map _line_type lines in
  let line_types := pass2 line_types in
  let line_types := pass3 line_types in
  (* everything what is still undefined, change to 1 *)
  map (fun x => if x =? -1 then 1 else x) line_types.

(** ** _wrap_lines *)

(** A Python value used as a flag: [code_blocks] takes [unindent_code] as a
    boolean or as an explicit width. *)
Inductive py_flag : Type :=
  | PyBool (b : bool)
  | PyInt (n : Z).

Definition truthy (f : py_flag) : bool :=
  match f with
  | PyBool b => b
  | PyInt n => negb (n =? 0)
  end.

Definition _unindent_code (line : string) (shift : Z) : string :=
  if (shift =? -1) && negb (bool_decide (line = "")) then " " +:+ line
  else if (0 <? shift) && startswith (replicate_char (Z.to_nat shift) " ") line
       then drop_chars (Z.to_nat shift) line
  else line.

(** [x is True] *)
Definition is_True (f : py_flag) : bool :=
  match f with
  | PyBool true => true
  | _ => false
  end.

(** The integer a flag stands for ([bool] is a subclass of [int]). *)
Definition int_value (f : py_flag) : Z :=
  match f with
  | PyBool b => if b then 1 else 0
  | PyInt n => n
  end.

Definition unindent_shift (unindent_code : py_flag) : Z :=
  if truthy unindent_code then
    if is_True unindent_code then 3 else int_value unindent_code
  else -1.

(** [if answer:] for a string or [None]. *)
Definition str_truthy (answer : option string) : bool :=
  match answer with
  | Some a => negb (bool_decide (a = ""))
  | None => false
  end.

(** Exceptions that reach the caller of [beautify]. *)
Inductive exn : Type :=
  | CacheError (msg : string).

Inductive result (A : Type) : Type :=
  | Ok (a : A)
  | Raise (e : exn).
Arguments Ok {A} a.
Arguments Raise {A} e.

(** The redis client, over the state [St] of the store: [get] answers with
    a stored value or [None], [set] updates the store, and either may raise. *)
Record redis_client (St : Type) : Type := {
  redis_get : string -> St -> result (option string);
  redis_set : string -> string -> St -> result St
}.
Arguments redis_get {St} _ _ _.
Arguments redis_set {St} _ _ _ _.

Section Beautifier.
(** [textwrap.fill] of the standard library. *)
Variable textwrap_fill : string -> string.
(** What the vim process leaves in the text file, from the contents of
    the script file and of the text file. *)
Variable vim : string -> string -> string.
(** [VIM_NAME] of [languages_data]. *)
Variable VIM_NAME : gmap string string.
(** [hashlib.md5(text).hexdigest()] *)
Variable md5_hexdigest : string -> string.

Definition _language_name (name : string) : string :=
  default name (VIM_NAME !! name).

Definition wrap_line (unindent_code : py_flag)
    (result : list (Z * string)) (line_tuple : Z * string) : list (Z * string) :=
  if line_tuple.1 =? 1 then
    let shift := unindent_shift unindent_code in
    result ++ [(line_tuple.1, _unindent_code line_tuple.2 shift)]
  else
    let result :=
      if bool_decide (strip line_tuple.2 = "")
      then result ++ [(line_tuple.1, "")] else result in
    result ++ map (fun line => (line_tuple.1, line))
                  (splitlines (textwrap_fill line_tuple.2)).

Definition _wrap_lines (lines_classes : list (Z * string))
    (unindent_code : py_flag) : list (Z * string) :=
  foldl (wrap_line unindent_code) [] lines_classes.

Definition _run_vim_script (script_lines text_lines : list string) : string :=
  vim (join (String LF "") script_lines) (join (String LF "") text_lines).

Definition commenting_step (filetype : string)
    (st : list string * Z) (block : Z * list (Z * string)) : list string * Z :=
  let '(script_lines, block_start) := st in
  let lines := block.2 in
  let block_end := block_start + Z.of_nat (length lines) - 1 in
  let script_lines :=
    if block.1 =? 0 then
      let comment_type :=
        if (block_end - block_start <? 1) || bool_decide (filetype = "ruby")
        then "comment" else "sexy" in
      let script_lines :=
        (str_of_int block_start +:+ "," +:+ str_of_int block_end
           +:+ " call NERDComment(1, '" +:+ comment_type +:+ "')") :: script_lines in
      (str_of_int block_start +:+ "," +:+ str_of_int block_end
         +:+ " call NERDComment(1, 'uncomment')") :: script_lines
    else script_lines in
  (script_lines, block_end + 1).

Definition _commenting_script (lines_blocks : list (Z * list (Z * string)))
    (filetype : string) : list string :=
  let '(script_lines, _) := foldl (commenting_step filetype) ([], 1) lines_blocks in
  let script_lines := ("set ft=" +:+ _language_name filetype) :: script_lines in
  script_lines ++ ["wq"].

(** [text.splitlines()] with [rstrip('\n')] on every line. *)
Definition text_lines (text : string) : list string :=
  map (rstrip_chars [LF]) (splitlines text).

(** The returned string.  The [print unindent_code] of the source writes to
    standard output and changes nothing in the result; [_beautify_prints]
    below gives that line where standard output is modelled. *)
Definition _beautify (text filetype : string)
    (add_comments remove_text : bool) : string :=
  let unindent_code := add_comments || remove_text in
  let lines := text_lines text in
  let lines := _cleanup_lines lines in
  let lines_classes := zip (_classify_lines lines) lines in
  let lines_classes := _wrap_lines lines_classes (PyBool unindent_code) in
  if remove_text then
    let lines := map snd (filter (fun line => line.1 = 1) lines_classes) in
    let lines := _cleanup_lines lines in
    let output := join (String LF "") lines in
    if endswith (String LF "") output then output else output +:+ String LF ""
  else if negb add_comments then
    join (String LF "") (map snd lines_classes)
  else
    let lines_blocks := groupby Z.eqb fst lines_classes in
    let script_lines := _commenting_script lines_blocks filetype in
    _run_vim_script script_lines (map snd lines_classes).

Definition lines_blocks_answer (lines_classes : list (Z * string))
    : list (Z * string) :=
  let lines_blocks := groupby Z.eqb fst lines_classes in
  map (fun x : Z * list (Z * string) =>
         (x.1, join (String LF "") (map snd x.2) +:+ String LF ""))
      lines_blocks.

Definition code_blocks (text : string) (wrap_lines : bool)
    (unindent_code : py_flag) : list (Z * string) :=
  let lines := text_lines text in
  let lines_classes := zip (_classify_lines lines) lines in
  let lines_classes :=
    if wrap_lines then _wrap_lines lines_classes unindent_code
    else lines_classes in
  lines_blocks_answer lines_classes.

Definition beauty_keys : list string := ["add_comments"; "remove_text"].

Definition beautify {St : Type} (REDIS : redis_client St)
    (text lang : string) (options : option (gmap string bool)) (store : St)
    : result string * St :=
  let options := default ∅ options in
  let beauty_options :=
    filter (fun kv : string * bool => kv.1 ∈ beauty_keys) options in
  let mode := "" in
  let mode := if default false (beauty_options !! "add_comments")
              then mode +:+ "c" else mode in
  let mode := if default false (beauty_options !! "remove_text")
              then mode +:+ "q" else mode in
  if bool_decide (beauty_options = ∅) then
    (* if mode is unknown, just don't transform the text at all *)
    (Ok text, store)
  else
    let digest := "t:" +:+ md5_hexdigest text +:+ ":" +:+ lang +:+ ":" +:+ mode in
    match redis_get REDIS digest store with
    | Raise e => (Raise e, store)
    | Ok answer =>
        if str_truthy answer then (Ok (default "" answer), store)
        else
          let answer :=
            _beautify text lang
              (default false (beauty_options !! "add_comments"))
              (default false (beauty_options !! "remove_text")) in
          match redis_set REDIS digest answer store with
          | Raise e => (Raise e, store)
          | Ok store' => (Ok answer, store')
          end
    end.
End Beautifier.

(** * Vocabulary of the statements *)

(** A text label directly before an undefined one, and an undefined label
    directly before a text one: the two patterns the scans rewrite. *)
Definition bad_fwd (l : list Z) (i : nat) : Prop :=
  l !! i = Some 0 /\ l !! S i = Some (-1).

Definition bad_bwd (l : list Z) (i : nat) : Prop :=
  l !! i = Some (-1) /\ l !! S i = Some 0.

Definition stable (l : list Z) : Prop :=
  forall i, ~ bad_fwd l i /\ ~ bad_bwd l i.

(** The values a label array holds between the passes. *)
Definition working_label (x : Z) : Prop := x = -2 \/ x = -1 \/ x = 0 \/ x = 1.

Definition open_label (x : Z) : Prop := x = -1 \/ x = 0 \/ x = 1.

Definition final_label (x : Z) : Prop := x = 0 \/ x = 1.

(** The number of positions at which two label arrays differ. *)
Definition label_changes (before after : list Z) : nat :=
  length (filter (fun p : Z * Z => p.1 <> p.2) (zip before after)).

(** What pass 3 may do to one label: keep it, or resolve -1 to 0. *)
Definition resolves (a b : Z) : Prop := b = a \/ (a = -1 /\ b = 0).

(** The key and the choice of [collapse_blank]. *)
Definition nonblank (line : string) : bool := negb (is_blank line).

Definition keep_or_collapse (x : bool * list string) : list string :=
  if x.1 then x.2 else [""].

(** Lines in which every blank line is empty and is followed by a line
    that is not blank (or by nothing). *)
Fixpoint tidy (l : list string) : Prop :=
  match l with
  | [] => True
  | x :: l' =>
      (is_blank x = true ->
       x = "" /\ match l' with y :: _ => is_blank y = false | [] => True end) /\
      tidy l'
  end.

(** The shape of a cleaned sequence of lines. *)
Definition clean_form (l : list string) : Prop :=
  tidy l /\
  (forall x, head l = Some x -> is_blank x = false) /\
  (forall z, last l = Some z -> is_blank z = false).

(** What [_beautify] computes when [remove_text] is set, written without the
    collaborators: the CODE lines of the cleaned text, shifted by 3. *)
Definition remove_text_output (text : string) : string :=
  let lines := _cleanup_lines (text_lines text) in
  let lines_classes := zip (_classify_lines lines) lines in
  let lines :=
    map (fun x : Z * string => _unindent_code x.2 3)
        (filter (fun line : Z * string => line.1 = 1) lines_classes) in
  let output := join (String LF "") (_cleanup_lines lines) in
  if endswith (String LF "") output then output else output +:+ String LF "".

(** The text of the remove-text example. *)
Definition remove_text_example : string :=
"Some explanation.

    x = 1
    y = 2

More text.
".

(** Stand-ins for the collaborators in closed examples: a [textwrap.fill]
    that returns its line, a vim run that leaves the text file as it is, and
    a digest that is the text itself. *)
Definition fill_keeps (line : string) : string := line.

Definition vim_leaves_file (script text : string) : string := text.

Definition md5_stub (text : string) : string := text.

(** The first three stages of the data flow as the spec words it: raw text,
    Cleanup Pass, Line Classifier (its output zipped with the lines), Reflow
    Engine. *)
Definition spec_shared_stages (textwrap_fill : string -> string)
    (text : string) (unindent_code : py_flag) : list (Z * string) :=
  let lines := _cleanup_lines (text_lines text) in
  _wrap_lines textwrap_fill (zip (_classify_lines lines) lines) unindent_code.

(** A blank line followed by one code line. *)
Definition blank_then_code : string := String LF "    x = 1".

(** The options [_beautify] is called with, and the cache key of a call. *)
Definition beauty_options_of (options : gmap string bool) : gmap string bool :=
  filter (fun kv : string * bool => kv.1 ∈ beauty_keys) options.

Definition cache_key (md5_hexdigest : string -> string)
    (text lang : string) (options : gmap string bool) : string :=
  let beauty_options := beauty_options_of options in
  let mode := "" in
  let mode := if default false (beauty_options !! "add_comments")
              then mode +:+ "c" else mode in
  let mode := if default false (beauty_options !! "remove_text")
              then mode +:+ "q" else mode in
  "t:" +:+ md5_hexdigest text +:+ ":" +:+ lang +:+ ":" +:+ mode.

(** Cache collaborators for closed examples: a store kept in memory, a
    client whose lookups fail, and a client whose stores fail. *)
Definition memory_redis : redis_client (gmap string string) := {|
  redis_get := fun key store => Ok (store !! key);
  redis_set := fun key value store => Ok (<[key := value]> store)
|}.

Definition unreachable_redis : redis_client unit := {|
  redis_get := fun _ _ => Raise (CacheError "connection refused");
  redis_set := fun _ _ store => Ok store
|}.

Definition readonly_redis : redis_client unit := {|
  redis_get := fun _ _ => Ok None;
  redis_set := fun _ _ _ => Raise (CacheError "read only")
|}.

(** * Verification *)

(** ** The embedding on small inputs *)

Example splitlines_breaks :
  splitlines ("ab" +:+ String LF "" +:+ String LF "c"
              +:+ String CR (String LF "d") +:+ String CR "e" +:+ String LF "")
  = ["ab"; ""; "c"; "d"; "e"] /\
  splitlines "" = [] /\
  splitlines (String LF "") = [""].
Proof. repeat split; reflexivity. Qed.

Example strip_whitespace :
  strip ("  a b " +:+ String LF "") = "a b" /\
  strip (String "009" " ") = "" /\
  strip "" = "".
Proof. repeat split; reflexivity. Qed.

Example line_type_rules :
  _line_type "" = -1 /\
  _line_type "   " = -1 /\
  _line_type "text" = 0 /\
  _line_type "  two spaces" = 0 /\
  _line_type "   three spaces" = 1 /\
  _line_type "    1. first item" = 0 /\
  _line_type "    * bullet" = 0 /\
  _line_type "    12 no dot" = 1.
Proof. repeat split; reflexivity. Qed.

Example classify_blank_between_code :
  _classify_lines ["    code1"; ""; "    code2"] = [1; 1; 1] /\
  _classify_lines ["text"; ""; ""; "    code"; ""; ""; "text"] = [0; 0; 1; 1; 1; 0; 0].
Proof. repeat split; vm_compute; reflexivity. Qed.

Example cleanup_lines_collapses :
  _cleanup_lines [""; " "; "a"; "  "; ""; "b"; " "; "c"; ""] = ["a"; ""; "b"; ""; "c"].
Proof. vm_compute. reflexivity. Qed.

Example unindent_code_shifts :
  _unindent_code "    x" 3 = " x" /\
  _unindent_code "  x" 3 = "  x" /\
  _unindent_code "    x" (-1) = "     x" /\
  _unindent_code "" (-1) = "" /\
  _unindent_code "    x" 0 = "    x".
Proof. repeat split; reflexivity. Qed.

(** ** The loop of pass 3 *)

Lemma pass3_step (l : list Z) :
  pass3 l = if (pass3_body l).2 then pass3 (pass3_body l).1 else (pass3_body l).1.
Proof.
  rewrite pass3_equation_1.
  destruct (inspect (pass3_body l)) as [[l' [|]] E]; simp pass3; by rewrite E.
Qed.

Lemma pass3_scans_step (l : list Z) :
  pass3_scans l =
  if (pass3_body l).2 then S (pass3_scans (pass3_body l).1) else 1%nat.
Proof.
  rewrite pass3_scans_equation_1.
  destruct (inspect (pass3_body l)) as [[l' [|]] E]; simp pass3_scans; by rewrite E.
Qed.

Lemma lookup_total_pair (l : list Z) (i : nat) (a b : Z) :
  l !! i = Some a -> l !! S i = Some b ->
  l !!! i = a /\ l !!! (i + 1)%nat = b.
Proof.
  intros Ha Hb. rewrite Nat.add_1_r.
  split; by apply list_lookup_total_correct.
Qed.

Lemma lookup_pair_total (l : list Z) (i : nat) :
  is_Some (l !! S i) ->
  l !! i = Some (l !!! i) /\ l !! S i = Some (l !!! (i + 1)%nat).
Proof.
  intros Hs. rewrite Nat.add_1_r.
  pose proof (lookup_lt_is_Some_1 _ _ Hs) as Hlt.
  split; apply list_lookup_lookup_total_lt; lia.
Qed.

Lemma text_fwd_cond (l : list Z) (i : nat) :
  (l !!! i =? 0) && (l !!! (i + 1)%nat =? -1) = true <-> bad_fwd l i.
Proof.
  unfold bad_fwd. split.
  - intros [H1 H2]%andb_prop. apply Z.eqb_eq in H1.
    apply lookup_total_undefined in H2. rewrite Nat.add_1_r in H2.
    destruct (lookup_pair_total l i) as [E _]; [by eexists|].
    by rewrite E, H1.
  - intros [H1 H2]. destruct (lookup_total_pair l i _ _ H1 H2) as [-> ->]. done.
Qed.

Lemma text_bwd_cond (l : list Z) (i : nat) :
  (l !!! i =? -1) && (l !!! (i + 1)%nat =? 0) = true <-> bad_bwd l i.
Proof.
  unfold bad_bwd. split.
  - intros [H1 H2]%andb_prop. apply lookup_total_undefined in H1.
    apply Z.eqb_eq in H2. split; [done|].
    destruct (l !! S i) as [b|] eqn:E.
    + destruct (lookup_total_pair l i _ _ H1 E) as [_ Hb]. congruence.
    + apply lookup_ge_None in E. apply lookup_lt_Some in H1.
      rewrite list_lookup_total_alt in H2.
      rewrite (proj2 (lookup_ge_None l (i + 1)%nat)) in H2 by lia.
      discriminate H2.
  - intros [H1 H2]. destruct (lookup_total_pair l i _ _ H1 H2) as [-> ->]. done.
Qed.

Lemma text_fwd_length st i : length (text_fwd st i).1 = length st.1.
Proof.
  destruct st as [l c]. unfold text_fwd.
  destruct (_ && _); simpl; [apply length_insert | done].
Qed.

Lemma text_bwd_length st i : length (text_bwd st i).1 = length st.1.
Proof.
  destruct st as [l c]. unfold text_bwd.
  destruct (_ && _); simpl; [apply length_insert | done].
Qed.

Lemma foldl_text_fwd_length ixs st :
  length (foldl text_fwd st ixs).1 = length st.1.
Proof.
  revert st. induction ixs as [|i ixs IH]; intros st; simpl; [done|].
  by rewrite IH, text_fwd_length.
Qed.

Lemma foldl_text_bwd_length ixs st :
  length (foldl text_bwd st ixs).1 = length st.1.
Proof.
  revert st. induction ixs as [|i ixs IH]; intros st; simpl; [done|].
  by rewrite IH, text_bwd_length.
Qed.

(** A scan over a label array without its pattern changes nothing. *)
Lemma foldl_text_fwd_fixed ixs l c :
  (forall i, ~ bad_fwd l i) -> foldl text_fwd (l, c) ixs = (l, c).
Proof.
  intros Hs. induction ixs as [|i ixs IH]; [done|].
  change (foldl text_fwd (l, c) (i :: ixs))
    with (foldl text_fwd (text_fwd (l, c) i) ixs).
  replace (text_fwd (l, c) i) with (l, c); [done|].
  unfold text_fwd. destruct (_ && _) eqn:E; [|done].
  apply text_fwd_cond in E. by destruct (Hs i).
Qed.

Lemma foldl_text_bwd_fixed ixs l c :
  (forall i, ~ bad_bwd l i) -> foldl text_bwd (l, c) ixs = (l, c).
Proof.
  intros Hs. induction ixs as [|i ixs IH]; [done|].
  change (foldl text_bwd (l, c) (i :: ixs))
    with (foldl text_bwd (text_bwd (l, c) i) ixs).
  replace (text_bwd (l, c) i) with (l, c); [done|].
  unfold text_bwd. destruct (_ && _) eqn:E; [|done].
  apply text_bwd_cond in E. by destruct (Hs i).
Qed.

(** The forward scan leaves no text label directly before an undefined one
    among the pairs it visited. *)
Lemma fwd_scan_spec (k : nat) (l : list Z) (c : bool) :
  forall i, (i < k)%nat -> ~ bad_fwd (foldl text_fwd (l, c) (seq 0 k)).1 i.
Proof.
  induction k as [|k IH]; intros i Hi; [lia|].
  rewrite seq_S, foldl_app. simpl.
  destruct (foldl text_fwd (l, c) (seq 0 k)) as [l1 c1] eqn:E1.
  simpl in IH. unfold text_fwd.
  destruct (_ && _) eqn:E; simpl.
  - apply text_fwd_cond in E. destruct E as [E0 E1'].
    rewrite Nat.add_1_r. intros [B1 B2].
    destruct (decide (i = k)) as [->|Hne].
    + rewrite list_lookup_insert_eq in B2 by (by eapply lookup_lt_Some).
      discriminate B2.
    + rewrite list_lookup_insert_ne in B1 by lia.
      rewrite list_lookup_insert_ne in B2 by lia.
      apply (IH i); [lia | by split].
  - destruct (decide (i = k)) as [->|Hne].
    + intros B. apply text_fwd_cond in B. congruence.
    + apply IH. lia.
Qed.

(** The backward scan leaves no undefined label directly before a text one
    among the pairs it visited, touches nothing above them, and keeps what
    the forward scan established. *)
Lemma bwd_scan_spec (k : nat) (l : list Z) (c : bool) :
  let l' := (foldl text_bwd (l, c) (rev (seq 0 k))).1 in
  (forall i, (k <= i)%nat -> l' !! i = l !! i) /\
  (forall i, (i < k)%nat -> ~ bad_bwd l' i) /\
  ((forall i, ~ bad_fwd l i) -> forall i, ~ bad_fwd l' i).
Proof.
  revert l c. induction k as [|k IH]; intros l c l'; subst l'.
  { simpl. repeat split; auto. lia. }
  rewrite seq_S, rev_app_distr.
  change (rev [(0 + k)%nat] ++ rev (seq 0 k)) with (k :: rev (seq 0 k)).
  change (foldl text_bwd (l, c) (k :: rev (seq 0 k)))
    with (foldl text_bwd (text_bwd (l, c) k) (rev (seq 0 k))).
  destruct (text_bwd (l, c) k) as [l1 c1] eqn:E1.
  destruct (IH l1 c1) as (Hframe & Hbwd & Hfwd). clear IH.
  assert (Hl1 : (forall i, i <> k -> l1 !! i = l !! i) /\ ~ bad_bwd l1 k /\
                ((forall i, ~ bad_fwd l i) -> forall i, ~ bad_fwd l1 i)).
  { unfold text_bwd in E1.
    destruct ((l !!! k =? -1) && (l !!! (k + 1)%nat =? 0)) eqn:E;
      injection E1 as <- <-.
    - apply text_bwd_cond in E. destruct E as [E0 E1].
      assert (Hk : (k < length l)%nat) by (by eapply lookup_lt_Some).
      split; [intros i Hi; by rewrite list_lookup_insert_ne|].
      split.
      + intros [B _]. rewrite list_lookup_insert_eq in B by done. discriminate B.
      + intros Hs i [B1 B2].
        destruct (decide (i = k)) as [->|Hne].
        * rewrite list_lookup_insert_ne in B2 by lia. congruence.
        * rewrite list_lookup_insert_ne in B1 by lia.
          destruct (decide (S i = k)) as [<-|Hne'].
          -- rewrite list_lookup_insert_eq in B2 by done. discriminate B2.
          -- rewrite list_lookup_insert_ne in B2 by lia.
             by apply (Hs i).
    - split; [done|]. split; [|done].
      intros B. apply text_bwd_cond in B. congruence. }
  destruct Hl1 as (Hne & Hk & Hpres).
  split; [|split].
  - intros i Hi. rewrite Hframe by lia. apply Hne. lia.
  - intros i Hi. destruct (decide (i = k)) as [->|Hik].
    + intros [B1 B2]. apply Hk. split; by rewrite <- Hframe by lia.
    + apply Hbwd. lia.
  - intros Hs. apply Hfwd. by apply Hpres.
Qed.

Lemma no_pair_beyond (l : list Z) (i : nat) (a b : Z) :
  (length l - 1 <= i)%nat -> l !! i = Some a -> l !! S i = Some b -> False.
Proof.
  intros Hi Ha Hb. apply lookup_lt_Some in Hb. lia.
Qed.

(** One run of the loop body reaches a label array that both scans leave
    alone. *)
Lemma pass3_body_stable (l : list Z) : stable (pass3_body l).1.
Proof.
  unfold pass3_body, range_pred.
  destruct (foldl text_fwd (l, false) (seq 0 (length l - 1))) as [l1 c1] eqn:E1.
  assert (Hlen1 : length l1 = length l).
  { change l1 with (l1, c1).1. rewrite <- E1. apply foldl_text_fwd_length. }
  assert (Hf1 : forall i, ~ bad_fwd l1 i).
  { intros i. destruct (decide (i < length l - 1)%nat) as [Hi|Hi].
    - change l1 with (l1, c1).1. rewrite <- E1. by apply fwd_scan_spec.
    - intros [B1 B2]. eapply (no_pair_beyond l1 i); eauto. lia. }
  simpl. destruct (bwd_scan_spec (length l1 - 1) l1 c1) as (_ & Hb & Hf).
  set (l2 := (foldl text_bwd (l1, c1) (rev (seq 0 (length l1 - 1)))).1) in *.
  assert (Hlen2 : length l2 = length l1) by apply foldl_text_bwd_length.
  intros i. split; [by apply Hf|].
  destruct (decide (i < length l1 - 1)%nat) as [Hi|Hi]; [by apply Hb|].
  intros [B1 B2]. eapply (no_pair_beyond l2 i); eauto. lia.
Qed.

Lemma pass3_body_fixed (l : list Z) : stable l -> pass3_body l = (l, false).
Proof.
  intros Hs. unfold pass3_body.
  rewrite foldl_text_fwd_fixed by (intros i; apply Hs).
  simpl. apply foldl_text_bwd_fixed. intros i; apply Hs.
Qed.

(** The loop ends after the first run of its body or after the second. *)
Lemma pass3_eq (l : list Z) : pass3 l = (pass3_body l).1.
Proof.
  rewrite pass3_step. destruct (pass3_body l).2 eqn:E; [|done].
  rewrite pass3_step, pass3_body_fixed; [done | apply pass3_body_stable].
Qed.

Lemma pass3_scans_eq (l : list Z) :
  pass3_scans l = if (pass3_body l).2 then 2%nat else 1%nat.
Proof.
  rewrite pass3_scans_step. destruct (pass3_body l).2 eqn:E; [|done].
  rewrite pass3_scans_step, pass3_body_fixed; [done | apply pass3_body_stable].
Qed.

(** ** Labels of the classifier *)

Lemma _line_type_open (line : string) : open_label (_line_type line).
Proof.
  unfold _line_type, open_label.
  repeat (case_bool_decide || destruct (_ || _) || destruct (startswith _ _)); auto.
Qed.

Lemma foldl_absorb_fwd_inv ixs l :
  Forall working_label l ->
  Forall working_label (foldl absorb_fwd l ixs) /\
  length (foldl absorb_fwd l ixs) = length l.
Proof.
  revert l. induction ixs as [|i ixs IH]; intros l Hl; [done|].
  change (foldl absorb_fwd l (i :: ixs)) with (foldl absorb_fwd (absorb_fwd l i) ixs).
  assert (Forall working_label (absorb_fwd l i) /\ length (absorb_fwd l i) = length l)
    as [H1 H2].
  { unfold absorb_fwd. destruct (_ && _); [|done].
    split; [apply Forall_insert; [done | by left] | apply length_insert]. }
  destruct (IH _ H1) as [H3 H4]. split; [done | congruence].
Qed.

Lemma foldl_absorb_bwd_inv ixs l :
  Forall working_label l ->
  Forall working_label (foldl absorb_bwd l ixs) /\
  length (foldl absorb_bwd l ixs) = length l.
Proof.
  revert l. induction ixs as [|i ixs IH]; intros l Hl; [done|].
  change (foldl absorb_bwd l (i :: ixs)) with (foldl absorb_bwd (absorb_bwd l i) ixs).
  assert (Forall working_label (absorb_bwd l i) /\ length (absorb_bwd l i) = length l)
    as [H1 H2].
  { unfold absorb_bwd. destruct (_ && _); [|done].
    split; [apply Forall_insert; [done | by left] | apply length_insert]. }
  destruct (IH _ H1) as [H3 H4]. split; [done | congruence].
Qed.

Lemma pass2_open (l : list Z) :
  Forall open_label l ->
  Forall open_label (pass2 l) /\ length (pass2 l) = length l.
Proof.
  intros Hl. unfold pass2.
  assert (Hw : Forall working_label l).
  { eapply Forall_impl; [exact Hl|]. intros x Hx. by right. }
  destruct (foldl_absorb_fwd_inv (range_pred (length l)) l Hw) as [H1 H2].
  set (l1 := foldl absorb_fwd l (range_pred (length l))) in *.
  destruct (foldl_absorb_bwd_inv (rev (range_pred (length l1))) l1 H1) as [H3 H4].
  split; [|rewrite length_map; congruence].
  apply List.Forall_map. eapply Forall_impl; [exact H3|].
  intros x [-> | [-> | [-> | ->]]]; unfold open_label; simpl; auto.
Qed.

Lemma pass3_body_open (l : list Z) :
  Forall open_label l -> Forall open_label (pass3_body l).1.
Proof.
  intros Hl. unfold pass3_body.
  apply (foldl_inv (fun st => Forall open_label st.1)).
  - intros [l1 c1] i H1. unfold text_bwd. destruct (_ && _); [|done].
    apply Forall_insert; [done | right; by left].
  - apply (foldl_inv (fun st => Forall open_label st.1)); [|done].
    intros [l1 c1] i H1. unfold text_fwd. destruct (_ && _); [|done].
    apply Forall_insert; [done | right; by left].
Qed.

Lemma pass3_length (l : list Z) : length (pass3 l) = length l.
Proof. rewrite pass3_eq. apply (pass3_body_inv l). Qed.

(** C2. For every sequence of lines, [_classify_lines] returns one label per
    line, and every label returned is TEXT (0) or CODE (1): the undefined
    value -1 (and the absorbed tag -2) never leaves the classifier. *)
Theorem classify_lines_labels (lines : list string) :
  length (_classify_lines lines) = length lines /\
  Forall final_label (_classify_lines lines) /\
  (forall x, x ∈ _classify_lines lines -> x <> -1 /\ x <> -2).
Proof.
  unfold _classify_lines.
  assert (H0 : Forall open_label (map _line_type lines)).
  { apply List.Forall_map, Forall_forall. intros x _. apply _line_type_open. }
  destruct (pass2_open _ H0) as [H1 L1].
  pose proof (pass3_body_open _ H1) as H2. rewrite <- pass3_eq in H2.
  assert (H3 : Forall final_label
            (map (fun x => if x =? -1 then 1 else x)
                 (pass3 (pass2 (map _line_type lines))))).
  { apply List.Forall_map. eapply Forall_impl; [exact H2|].
    intros x [-> | [-> | ->]]; unfold final_label; simpl; auto. }
  split; [|split].
  - rewrite length_map, pass3_length, L1. apply length_map.
  - exact H3.
  - intros x Hx. rewrite Forall_forall in H3.
    destruct (H3 x Hx) as [-> | ->]; done.
Qed.

(** C4. On ["intro text"; ""; "    code"] the initial types are 0, -1, 1;
    pass 2 absorbs the blank line into the code that follows it, so the
    classifier answers TEXT, CODE, CODE.  Pass 3 on the same initial types
    would have made the blank line TEXT: pass 2 runs first and wins. *)
Theorem classify_blank_between_text_and_code :
  map _line_type ["intro text"; ""; "    code"] = [0; -1; 1] /\
  pass2 [0; -1; 1] = [0; 1; 1] /\
  pass3 [0; -1; 1] = [0; 0; 1] /\
  _classify_lines ["intro text"; ""; "    code"] = [0; 1; 1].
Proof. repeat split; vm_compute; reflexivity. Qed.

(** ** Termination and cost of pass 3 *)

Lemma resolves_insert (l0 l : list Z) (j : nat) :
  Forall2 resolves l0 l -> l !! j = Some (-1) ->
  Forall2 resolves l0 (<[j := 0]> l).
Proof.
  intros H. revert j. induction H as [|a b l0 l Hab H IH]; intros [|j] Hj;
    simplify_eq/=; constructor; auto.
  destruct Hab as [<- | [-> ?]]; [|done]. right. done.
Qed.

Lemma pass3_body_resolves (l : list Z) : Forall2 resolves l (pass3_body l).1.
Proof.
  unfold pass3_body.
  apply (foldl_inv (fun st => Forall2 resolves l st.1)).
  - intros [l1 c1] i H1. unfold text_bwd. destruct (_ && _) eqn:E; [|done].
    apply text_bwd_cond in E. destruct E as [E _]. by apply resolves_insert.
  - apply (foldl_inv (fun st => Forall2 resolves l st.1)).
    + intros [l1 c1] i H1. unfold text_fwd. destruct (_ && _) eqn:E; [|done].
      apply text_fwd_cond in E. destruct E as [_ E].
      rewrite Nat.add_1_r. by apply resolves_insert.
    + simpl. apply Forall_Forall2_diag, Forall_forall. intros x _. by left.
Qed.

Lemma resolves_count (l0 l : list Z) :
  Forall2 resolves l0 l ->
  (label_changes l0 l + count_undefined l = count_undefined l0)%nat.
Proof.
  unfold label_changes, count_undefined.
  induction 1 as [|a b l0 l Hab H IH]; [done|].
  simpl. rewrite !filter_cons. simpl.
  destruct Hab as [-> | [-> ->]]; repeat case_decide; simpl; try lia; congruence.
Qed.

Lemma label_changes_le (l0 l : list Z) : (label_changes l0 l <= length l0)%nat.
Proof.
  unfold label_changes.
  etransitivity; [apply length_filter|]. rewrite length_zip. lia.
Qed.

Lemma pass3_body_short (l : list Z) :
  (length l <= 1)%nat -> pass3_body l = (l, false).
Proof.
  intros Hl. unfold pass3_body, range_pred.
  replace (length l - 1)%nat with 0%nat by lia. simpl.
  replace (length l - 1)%nat with 0%nat by lia. done.
Qed.

Lemma all_undefined_stable (n : nat) : stable (replicate n (-1)).
Proof.
  intros i. split; intros [B1 B2].
  - apply lookup_replicate in B1 as [? _]. done.
  - apply lookup_replicate in B2 as [? _]. done.
Qed.

Lemma foldl_absorb_fwd_undefined (ixs : list nat) (n : nat) :
  foldl absorb_fwd (replicate n (-1)) ixs = replicate n (-1).
Proof.
  induction ixs as [|i ixs IH]; [done|].
  change (foldl absorb_fwd (replicate n (-1)) (i :: ixs))
    with (foldl absorb_fwd (absorb_fwd (replicate n (-1)) i) ixs).
  replace (absorb_fwd (replicate n (-1)) i) with (replicate n (-1)); [done|].
  unfold absorb_fwd. destruct (_ && _) eqn:E; [|done].
  apply andb_prop in E as [E1 E2]. apply Z.eqb_eq in E1.
  apply lookup_total_undefined, lookup_lt_Some in E2.
  rewrite length_replicate in E2.
  rewrite lookup_total_replicate_2 in E1 by lia. discriminate E1.
Qed.

Lemma foldl_absorb_bwd_undefined (ixs : list nat) (n : nat) :
  Forall (fun i => (S i < n)%nat) ixs ->
  foldl absorb_bwd (replicate n (-1)) ixs = replicate n (-1).
Proof.
  induction 1 as [|i ixs Hi _ IH]; [done|].
  change (foldl absorb_bwd (replicate n (-1)) (i :: ixs))
    with (foldl absorb_bwd (absorb_bwd (replicate n (-1)) i) ixs).
  replace (absorb_bwd (replicate n (-1)) i) with (replicate n (-1)); [done|].
  unfold absorb_bwd. destruct (_ && _) eqn:E; [|done].
  apply andb_prop in E as [_ E2]. apply Z.eqb_eq in E2.
  rewrite lookup_total_replicate_2 in E2 by lia. discriminate E2.
Qed.

Lemma pass2_undefined (n : nat) : pass2 (replicate n (-1)) = replicate n (-1).
Proof.
  unfold pass2. rewrite foldl_absorb_fwd_undefined, foldl_absorb_bwd_undefined.
  - change (map ?f ?l) with (f <$> l). by rewrite fmap_replicate.
  - rewrite length_replicate. apply Forall_forall. intros i Hi.
    apply list_elem_of_In, in_rev, list_elem_of_In in Hi.
    unfold range_pred in Hi. apply elem_of_seq in Hi. lia.
Qed.

Lemma _line_type_blank (lines : list string) :
  Forall (fun x => strip x = "") lines ->
  map _line_type lines = replicate (length lines) (-1).
Proof.
  induction 1 as [|x lines Hx _ IH]; [done|]. simpl. rewrite IH.
  unfold _line_type. by rewrite bool_decide_eq_true_2.
Qed.

(** C6. The [while changed] loop of pass 3 terminates on every label array:
    [pass3] is total and stops at a fixed point of the loop body.  Every
    label change resolves one undefined label, so the changes are at most
    the document length; every run of the body but the last changes a
    label, and the runs number at most the document length (one run for
    an empty or one-line document).  A document of undefined labels only
    is left as it is after a single run, and that is what a document of
    blank lines only reaches pass 3 as: the classifier labels it CODE
    throughout. *)
Theorem pass3_terminates (line_types : list Z) :
  pass3_body (pass3 line_types) = (pass3 line_types, false) /\
  length (pass3 line_types) = length line_types /\
  (label_changes line_types (pass3 line_types)
     + count_undefined (pass3 line_types) = count_undefined line_types)%nat /\
  (label_changes line_types (pass3 line_types) <= length line_types)%nat /\
  (pass3_scans line_types <= S (label_changes line_types (pass3 line_types)))%nat /\
  (pass3_scans line_types <= Nat.max 1 (length line_types))%nat /\
  (forall n : nat,
     pass3 (replicate n (-1)) = replicate n (-1) /\
     pass3_scans (replicate n (-1)) = 1%nat) /\
  (forall lines : list string,
     Forall (fun x => strip x = "") lines ->
     pass2 (map _line_type lines) = replicate (length lines) (-1) /\
     _classify_lines lines = replicate (length lines) 1).
Proof.
  pose proof (pass3_body_resolves line_types) as Hres.
  apply resolves_count in Hres.
  pose proof (pass3_body_inv line_types) as (Hlen & _ & Hlt).
  rewrite pass3_eq, pass3_scans_eq.
  split; [apply pass3_body_fixed, pass3_body_stable|].
  split; [done|].
  split; [done|].
  split; [apply label_changes_le|].
  assert (Hblank : forall n, pass3 (replicate n (-1)) = replicate n (-1)).
  { intros n. rewrite pass3_eq.
    by rewrite pass3_body_fixed by apply all_undefined_stable. }
  split; [|split; [|split]].
  - destruct (pass3_body line_types).2; [|lia].
    specialize (Hlt eq_refl). lia.
  - destruct (decide (length line_types <= 1)%nat) as [Hs|Hs].
    + rewrite pass3_body_short by done. simpl. lia.
    + destruct (pass3_body line_types).2; lia.
  - intros n. split; [apply Hblank|].
    rewrite pass3_scans_eq.
    by rewrite pass3_body_fixed by apply all_undefined_stable.
  - intros lines Hlines. unfold _classify_lines.
    rewrite (_line_type_blank lines Hlines), pass2_undefined, Hblank.
    split; [done|]. change (map ?f ?l) with (f <$> l). by rewrite fmap_replicate.
Qed.

(** ** The cleanup pass *)

Lemma collapse_blank_alt (lines : list string) :
  collapse_blank lines = concat (map keep_or_collapse (groupby Bool.eqb nonblank lines)).
Proof. reflexivity. Qed.

Lemma groupby_head {A K : Type} (eqb : K -> K -> bool) (key : A -> K) x l :
  exists g gs, groupby eqb key (x :: l) = (key x, x :: g) :: gs.
Proof.
  simpl. destruct (groupby eqb key l) as [|[k g] gs]; [by eexists _, _|].
  destruct (eqb (key x) k); by eexists _, _.
Qed.

(** [collapse_blank] read line by line. *)
Lemma collapse_blank_cons (x : string) (l : list string) :
  collapse_blank (x :: l) =
  match l with
  | [] => if nonblank x then [x] else [""]
  | y :: _ =>
      if nonblank x then x :: collapse_blank l
      else if nonblank y then "" :: collapse_blank l
      else collapse_blank l
  end.
Proof.
  rewrite !collapse_blank_alt. destruct l as [|y l'].
  { simpl. unfold keep_or_collapse. simpl. by destruct (nonblank x). }
  destruct (groupby_head Bool.eqb nonblank y l') as (g & gs & E).
  change (groupby Bool.eqb nonblank (x :: y :: l'))
    with (match groupby Bool.eqb nonblank (y :: l') with
          | (k, g) :: gs =>
              if Bool.eqb (nonblank x) k then (nonblank x, x :: g) :: gs
              else (nonblank x, [x]) :: (k, g) :: gs
          | [] => [(nonblank x, [x])]
          end).
  rewrite E. unfold keep_or_collapse.
  destruct (nonblank x), (nonblank y); simpl; reflexivity.
Qed.

Lemma collapse_blank_head_blank (x : string) (l : list string) :
  is_blank x = true ->
  exists r, collapse_blank (x :: l) = "" :: r /\
            match r with y :: _ => is_blank y = false | [] => True end /\
            (tidy (collapse_blank l) -> tidy r).
Proof.
  revert x. induction l as [|y l IH]; intros x Hx.
  - rewrite collapse_blank_cons. unfold nonblank. rewrite Hx. simpl.
    by exists [].
  - rewrite collapse_blank_cons. unfold nonblank at 1. rewrite Hx. simpl.
    destruct (nonblank y) eqn:Hy.
    + exists (collapse_blank (y :: l)). split; [done|]. split; [|done].
      rewrite collapse_blank_cons. rewrite Hy.
      unfold nonblank in Hy. apply negb_true_iff in Hy.
      by destruct l.
    + unfold nonblank in Hy. apply negb_false_iff in Hy.
      destruct (IH y Hy) as (r & E & Hr & Ht).
      exists r. split; [done|]. split; [done|].
      rewrite E. simpl. tauto.
Qed.

Lemma collapse_blank_tidy (l : list string) : tidy (collapse_blank l).
Proof.
  induction l as [|x l IH]; [done|].
  destruct (is_blank x) eqn:Hx.
  - destruct (collapse_blank_head_blank x l Hx) as (r & E & Hr & Ht).
    rewrite E. simpl. split; [done | by apply Ht].
  - rewrite collapse_blank_cons. unfold nonblank. rewrite Hx. simpl.
    destruct l; simpl; (split; [congruence | done]).
Qed.

Lemma collapse_blank_fixed (l : list string) : tidy l -> collapse_blank l = l.
Proof.
  induction l as [|x l IH]; [done|]. intros [Hx Hl].
  rewrite collapse_blank_cons. unfold nonblank.
  destruct (is_blank x) eqn:Ex; simpl.
  - destruct (Hx eq_refl) as [-> Hy]. destruct l as [|y l']; [done|].
    rewrite Hy. simpl. by rewrite IH.
  - destruct l; [done|]. by rewrite IH.
Qed.

Lemma collapse_blank_head (x : string) (l : list string) :
  is_blank x = false -> head (collapse_blank (x :: l)) = Some x.
Proof.
  intros Hx. rewrite collapse_blank_cons. unfold nonblank. rewrite Hx.
  by destruct l.
Qed.

Lemma collapse_blank_nil (l : list string) : collapse_blank l = [] -> l = [].
Proof.
  induction l as [|x l IH]; [done|]. rewrite collapse_blank_cons.
  destruct l as [|y l']; [by destruct (nonblank x)|].
  destruct (nonblank x); [done|]. destruct (nonblank y); [done|].
  intros H. by specialize (IH H).
Qed.

Lemma collapse_blank_last (l : list string) (z : string) :
  last l = Some z -> is_blank z = false -> last (collapse_blank l) = Some z.
Proof.
  induction l as [|x l IH]; [done|]. intros Hl Hz.
  rewrite collapse_blank_cons. destruct l as [|y l'].
  - simpl in Hl. injection Hl as ->. unfold nonblank. by rewrite Hz.
  - change (last (x :: y :: l')) with (last (y :: l')) in Hl.
    specialize (IH Hl Hz).
    assert (Hne : collapse_blank (y :: l') <> []).
    { intros E. by apply collapse_blank_nil in E. }
    destruct (collapse_blank (y :: l')) as [|c cs] eqn:Ec; [done|].
    destruct (nonblank x); [done|]. by destruct (nonblank y).
Qed.

Lemma tidy_no_blank_pair (l : list string) (i : nat) (x y : string) :
  tidy l -> l !! i = Some x -> l !! S i = Some y ->
  is_blank x = true -> is_blank y = false.
Proof.
  revert i. induction l as [|a l IH]; intros [|i] Ht Hx Hy Hb; simplify_eq/=.
  - destruct Ht as [Ha _]. destruct (Ha Hb) as [_ Hn].
    destruct l; by simplify_eq/=.
  - destruct Ht as [_ Ht]. by apply (IH i).
Qed.

Lemma tidy_blank_empty (l : list string) (x : string) :
  tidy l -> x ∈ l -> is_blank x = true -> x = "".
Proof.
  induction l as [|a l IH]; intros Ht Hin Hb; [by apply elem_of_nil in Hin|].
  destruct Ht as [Ha Ht]. apply elem_of_cons in Hin as [-> | Hin]; [|by apply IH].
  by destruct (Ha Hb).
Qed.

(** The two trimming loops. *)
Lemma first_nonblank_drop (l : list string) :
  match drop (first_nonblank l) l with
  | x :: _ => is_blank x = false
  | [] => True
  end.
Proof.
  induction l as [|x l IH]; [done|]. simpl.
  destruct (is_blank x) eqn:E; [exact IH | done].
Qed.

Lemma first_nonblank_all_blank (l : list string) :
  Forall (fun x => is_blank x = true) l -> drop (first_nonblank l) l = [].
Proof.
  induction 1 as [|x l Hx Hl IH]; [done|]. simpl. by rewrite Hx.
Qed.

Lemma last_nonblank_spec (l : list string) (n : nat) :
  last_nonblank l n = 0%nat \/
  exists e, last_nonblank l n = S e /\ (e < n)%nat /\ is_blank (l !!! e) = false.
Proof.
  induction n as [|n IH]; [by left|]. simpl.
  destruct (is_blank (l !!! n)) eqn:E.
  - destruct IH as [IH | (e & ? & ? & ?)]; [by left|].
    right. exists e. repeat split; [done | lia | done].
  - right. exists n. repeat split; [lia | done].
Qed.

Lemma last_nonblank_lower (l : list string) (n i : nat) :
  (i < n)%nat -> is_blank (l !!! i) = false -> (i < last_nonblank l n)%nat.
Proof.
  induction n as [|n IH]; intros Hi Hb; [lia|]. simpl.
  destruct (is_blank (l !!! n)) eqn:E; [|lia].
  apply IH; [|done]. destruct (decide (i = n)) as [->|]; [congruence | lia].
Qed.

Lemma _cleanup_lines_alt (lines : list string) :
  _cleanup_lines lines =
  let lines := drop (first_nonblank lines) lines in
  collapse_blank (take (last_nonblank lines (length lines)) lines).
Proof.
  unfold _cleanup_lines. cbv zeta.
  case_bool_decide as H1; [by subst|].
  case_bool_decide as H2; [by rewrite H2|].
  case_bool_decide as H3; [by rewrite H3|]. done.
Qed.

Lemma _cleanup_lines_clean (lines : list string) : clean_form (_cleanup_lines lines).
Proof.
  rewrite _cleanup_lines_alt. cbv zeta.
  pose proof (first_nonblank_drop lines) as Hd.
  destruct (drop (first_nonblank lines) lines) as [|x d] eqn:Ed.
  { simpl. repeat split; done. }
  assert (H0 : (0 < last_nonblank (x :: d) (length (x :: d)))%nat).
  { apply last_nonblank_lower; [simpl; lia | done]. }
  destruct (last_nonblank_spec (x :: d) (length (x :: d)))
    as [E | (e & E & He & Hb)]; [lia|].
  rewrite E.
  assert (Hlast : last (take (S e) (x :: d)) = Some ((x :: d) !!! e)).
  { rewrite last_lookup, length_take_le by lia.
    change (Init.Nat.pred (S e)) with e.
    rewrite lookup_take_lt by lia. by apply list_lookup_lookup_total_lt. }
  change (take (S e) (x :: d)) with (x :: take e d) in *.
  split; [apply collapse_blank_tidy|]. split.
  - intros y. rewrite collapse_blank_head by done. congruence.
  - intros z. rewrite (collapse_blank_last _ _ Hlast Hb). congruence.
Qed.

Lemma _cleanup_lines_fixed (l : list string) : clean_form l -> _cleanup_lines l = l.
Proof.
  intros (Ht & Hh & Hl). rewrite _cleanup_lines_alt. cbv zeta.
  destruct l as [|x l']; [done|].
  assert (Hx : is_blank x = false) by (by apply Hh).
  change (first_nonblank (x :: l')) with
    (if is_blank x then S (first_nonblank l') else 0%nat).
  rewrite Hx, drop_0.
  assert (Hz : is_blank ((x :: l') !!! length l') = false).
  { apply Hl. rewrite last_lookup. simpl.
    apply list_lookup_lookup_total_lt. simpl. lia. }
  change (last_nonblank (x :: l') (length (x :: l'))) with
    (if is_blank ((x :: l') !!! length l')
     then last_nonblank (x :: l') (length l') else S (length l')).
  rewrite Hz, take_ge by (simpl; lia).
  by apply collapse_blank_fixed.
Qed.

(** C3. [_cleanup_lines] is idempotent.  Its result starts and ends with a
    line that is not blank, holds no two consecutive blank lines (and its
    blank lines are empty), and it is the empty sequence, without error,
    for the empty sequence and for a sequence of blank lines only. *)
Theorem cleanup_lines_idempotent (lines : list string) :
  _cleanup_lines (_cleanup_lines lines) = _cleanup_lines lines /\
  (forall x, head (_cleanup_lines lines) = Some x -> strip x <> "") /\
  (forall x, last (_cleanup_lines lines) = Some x -> strip x <> "") /\
  (forall i x y,
     _cleanup_lines lines !! i = Some x ->
     _cleanup_lines lines !! S i = Some y ->
     ~ (strip x = "" /\ strip y = "")) /\
  (forall x, x ∈ _cleanup_lines lines -> strip x = "" -> x = "") /\
  (Forall (fun x => strip x = "") lines -> _cleanup_lines lines = []) /\
  _cleanup_lines [] = [].
Proof.
  pose proof (_cleanup_lines_clean lines) as Hc.
  split; [by apply _cleanup_lines_fixed|].
  destruct Hc as (Ht & Hh & Hl).
  split; [|split; [|split; [|split; [|split]]]].
  - intros x Hx E. specialize (Hh x Hx). unfold is_blank in Hh.
    by apply bool_decide_eq_false in Hh.
  - intros x Hx E. specialize (Hl x Hx). unfold is_blank in Hl.
    by apply bool_decide_eq_false in Hl.
  - intros i x y Hx Hy [Ex Ey].
    assert (Hb : is_blank y = false).
    { apply (tidy_no_blank_pair _ i x y Ht Hx Hy). by apply bool_decide_eq_true. }
    unfold is_blank in Hb. by apply bool_decide_eq_false in Hb.
  - intros x Hx E. apply (tidy_blank_empty _ x Ht Hx). by apply bool_decide_eq_true.
  - intros Hall. rewrite _cleanup_lines_alt. cbv zeta.
    rewrite first_nonblank_all_blank; [done|].
    eapply Forall_impl; [exact Hall|]. intros x E. by apply bool_decide_eq_true.
  - reflexivity.
Qed.

(** ** Block segmentation *)

Section GroupbyFacts.
Context {A K : Type} (eqb : K -> K -> bool) (key : A -> K).
Hypothesis eqb_eq : forall a b, eqb a b = true <-> a = b.

Lemma groupby_cons (x : A) (l : list A) :
  groupby eqb key (x :: l) =
  match groupby eqb key l with
  | (k, g) :: gs =>
      if eqb (key x) k then (key x, x :: g) :: gs
      else (key x, [x]) :: (k, g) :: gs
  | [] => [(key x, [x])]
  end.
Proof. reflexivity. Qed.

Lemma concat_groupby (l : list A) : concat (map snd (groupby eqb key l)) = l.
Proof.
  induction l as [|x l IH]; [done|]. rewrite groupby_cons.
  destruct (groupby eqb key l) as [|[k g] gs]; [by rewrite <- IH|].
  destruct (eqb (key x) k); simpl in *; by rewrite <- IH.
Qed.

Lemma groupby_groups (l : list A) :
  Forall (fun b : K * list A => b.2 <> [] /\ Forall (fun x => key x = b.1) b.2)
         (groupby eqb key l).
Proof.
  induction l as [|x l IH]; [constructor|]. rewrite groupby_cons.
  destruct (groupby eqb key l) as [|[k g] gs].
  { repeat constructor. done. }
  apply Forall_cons in IH as [[Hg Hk] IH]. simpl in *.
  destruct (eqb (key x) k) eqn:E.
  - apply eqb_eq in E. subst k. constructor; [|done]. simpl.
    split; [done | by constructor].
  - constructor; [simpl; split; [done | by repeat constructor]|].
    by constructor.
Qed.

Lemma groupby_adjacent (l : list A) (i : nat) (a b : K * list A) :
  groupby eqb key l !! i = Some a -> groupby eqb key l !! S i = Some b ->
  a.1 <> b.1.
Proof.
  revert i a b. induction l as [|x l IH]; intros i a b; [done|].
  rewrite groupby_cons.
  destruct (groupby eqb key l) as [|[k g] gs] eqn:Eg.
  { destruct i; done. }
  destruct (eqb (key x) k) eqn:E.
  - apply eqb_eq in E. subst k. destruct i as [|i]; simpl.
    + intros [= <-] Hb. simpl. by apply (IH 0%nat (key x, g) b).
    + intros Ha Hb. by apply (IH (S i) a b).
  - destruct i as [|i]; simpl.
    + intros [= <-] [= <-]. simpl. intros Heq.
      apply eqb_eq in Heq. congruence.
    + intros Ha Hb. by apply (IH i a b).
Qed.
End GroupbyFacts.

Lemma sum_list_concat {A : Type} (ls : list (list A)) :
  sum_list (map length ls) = length (concat ls).
Proof.
  induction ls as [|l ls IH]; [done|]. simpl. rewrite length_app. lia.
Qed.

(** C7. The blocks that [code_blocks] returns for a classified document
    ([lines_blocks_answer] over the groups of [groupby]): no two adjacent
    blocks share a label; the groups, in order, concatenate to the document,
    so their line counts add up to the number of (label, line) pairs; every
    group is non-empty and holds lines of its label only; and each block is
    the label of its group with the group's lines joined by newlines and a
    newline appended. *)
Theorem code_blocks_contiguity (lines_classes : list (Z * string)) :
  (forall i a b,
     lines_blocks_answer lines_classes !! i = Some a ->
     lines_blocks_answer lines_classes !! S i = Some b ->
     a.1 <> b.1) /\
  concat (map snd (groupby Z.eqb fst lines_classes)) = lines_classes /\
  sum_list (map (fun b : Z * list (Z * string) => length b.2)
                (groupby Z.eqb fst lines_classes)) = length lines_classes /\
  Forall (fun b : Z * list (Z * string) =>
            b.2 <> [] /\ Forall (fun x : Z * string => x.1 = b.1) b.2)
         (groupby Z.eqb fst lines_classes) /\
  Forall2 (fun (a : Z * string) (b : Z * list (Z * string)) =>
             a = (b.1, join (String LF "") (map snd b.2) +:+ String LF ""))
          (lines_blocks_answer lines_classes)
          (groupby Z.eqb fst lines_classes).
Proof.
  split; [|split; [|split; [|split]]].
  - unfold lines_blocks_answer. intros i a b.
    change (map ?f ?l) with (f <$> l).
    rewrite !list_lookup_fmap.
    destruct (groupby Z.eqb fst lines_classes !! i) as [ga|] eqn:Ea; [|done].
    destruct (groupby Z.eqb fst lines_classes !! S i) as [gb|] eqn:Eb; [|done].
    simpl. intros [= <-] [= <-]. simpl.
    exact (groupby_adjacent Z.eqb fst Z.eqb_eq _ _ _ _ Ea Eb).
  - apply concat_groupby.
  - rewrite <- (concat_groupby Z.eqb fst lines_classes) at 2.
    rewrite <- sum_list_concat, map_map. done.
  - apply groupby_groups, Z.eqb_eq.
  - unfold lines_blocks_answer.
    induction (groupby Z.eqb fst lines_classes) as [|b bs IH]; constructor; done.
Qed.

(** ** Reflow *)

Section Reflow.
Variable textwrap_fill : string -> string.

Lemma wrap_line_acc (u : py_flag) (acc : list (Z * string)) (x : Z * string) :
  wrap_line textwrap_fill u acc x = acc ++ wrap_line textwrap_fill u [] x.
Proof.
  unfold wrap_line. destruct (x.1 =? 1); [done|].
  case_bool_decide; simpl; [|done]. by rewrite <- app_assoc.
Qed.

Lemma foldl_wrap_line_acc (u : py_flag) (lc acc : list (Z * string)) :
  foldl (wrap_line textwrap_fill u) acc lc =
  acc ++ foldl (wrap_line textwrap_fill u) [] lc.
Proof.
  revert acc. induction lc as [|x lc IH]; intros acc; simpl.
  { by rewrite app_nil_r. }
  rewrite IH, (IH (wrap_line _ _ [] x)), wrap_line_acc. by rewrite <- app_assoc.
Qed.

Lemma _wrap_lines_cons (u : py_flag) (x : Z * string) (lc : list (Z * string)) :
  _wrap_lines textwrap_fill (x :: lc) u =
  wrap_line textwrap_fill u [] x ++ _wrap_lines textwrap_fill lc u.
Proof. unfold _wrap_lines. simpl. apply foldl_wrap_line_acc. Qed.

(** A CODE line is passed through [_unindent_code] and stays one line. *)
Lemma wrap_line_code (u : py_flag) (line : string) :
  wrap_line textwrap_fill u [] (1, line) =
  [(1, _unindent_code line (unindent_shift u))].
Proof. reflexivity. Qed.

(** What a line that is not CODE turns into keeps its label. *)
Lemma wrap_line_text (u : py_flag) (x : Z * string) :
  x.1 <> 1 -> Forall (fun y : Z * string => y.1 = x.1) (wrap_line textwrap_fill u [] x).
Proof.
  intros Hx. unfold wrap_line.
  destruct (x.1 =? 1) eqn:E; [by apply Z.eqb_eq in E|].
  apply Forall_app. split.
  - case_bool_decide; [by repeat constructor | constructor].
  - apply List.Forall_map, Forall_forall. done.
Qed.

Lemma filter_code_none (x : Z) (l : list (Z * string)) :
  x <> 1 -> Forall (fun y : Z * string => y.1 = x) l ->
  filter (fun line : Z * string => line.1 = 1) l = [].
Proof.
  intros Hx. induction 1 as [|y l Hy Hl IH]; [done|].
  rewrite filter_cons. case_decide; [congruence | done].
Qed.

(** The CODE lines after reflow are the CODE lines before it, unindented. *)
Lemma _wrap_lines_code (u : py_flag) (lc : list (Z * string)) :
  map snd (filter (fun line : Z * string => line.1 = 1)
                  (_wrap_lines textwrap_fill lc u)) =
  map (fun x : Z * string => _unindent_code x.2 (unindent_shift u))
      (filter (fun line : Z * string => line.1 = 1) lc).
Proof.
  induction lc as [|[k line] lc IH]; [done|].
  rewrite _wrap_lines_cons, filter_app, map_app, IH, filter_cons. simpl.
  case_decide as Hk.
  - subst k. by rewrite wrap_line_code.
  - by rewrite (filter_code_none k _ Hk (wrap_line_text u (k, line) Hk)).
Qed.
End Reflow.

(** ** The remove-text mode *)

Lemma _beautify_remove_text textwrap_fill vim VIM_NAME
    (text filetype : string) (add_comments : bool) :
  _beautify textwrap_fill vim VIM_NAME text filetype add_comments true =
  remove_text_output text.
Proof.
  unfold _beautify, remove_text_output. cbv zeta.
  rewrite orb_true_r, _wrap_lines_code. reflexivity.
Qed.

Lemma remove_text_example_output :
  remove_text_output remove_text_example = " x = 1
 y = 2
".
Proof. vm_compute. reflexivity. Qed.

(** C1.  The code at the example text: the remove-text mode returns the
    two code lines with one leading space each.  The default shift of
    [_wrap_lines] strips three of their four leading spaces, where its
    docstring promises to remove four. *)
Theorem beautify_remove_text_example textwrap_fill vim VIM_NAME (filetype : string) :
  _beautify textwrap_fill vim VIM_NAME remove_text_example filetype false true =
  " x = 1
 y = 2
".
Proof. rewrite _beautify_remove_text. apply remove_text_example_output. Qed.

(** Whatever the collaborators are, the output on the example text is not
    the two code lines flush left, the text that the docstring of
    [_wrap_lines] describes. *)
Lemma beautify_remove_text_example_not_flush :
  ~ exists textwrap_fill vim VIM_NAME filetype,
      _beautify textwrap_fill vim VIM_NAME remove_text_example filetype false true =
      "x = 1
y = 2
".
Proof.
  intros (textwrap_fill & vim & VIM_NAME & filetype & H).
  rewrite _beautify_remove_text, remove_text_example_output in H.
  discriminate H.
Qed.

(** ** Both flags set *)

(** C8, as amended.  With [add_comments] and [remove_text] both set,
    [_beautify] takes its [remove_text] branch: the result is that of
    [remove_text] alone, whatever the vim process, the language table and
    the file type are. *)
Theorem beautify_both_flags_removes_text
    textwrap_fill textwrap_fill' vim vim' VIM_NAME VIM_NAME'
    (text filetype filetype' : string) :
  _beautify textwrap_fill vim VIM_NAME text filetype true true =
  _beautify textwrap_fill' vim' VIM_NAME' text filetype' false true.
Proof. by rewrite !_beautify_remove_text. Qed.

(** C8, as stated, fails: with both flags set the result is not that of the
    comment-insertion branch. *)
Lemma beautify_both_flags_not_comments :
  _beautify fill_keeps vim_leaves_file ∅ remove_text_example "python" true true <>
  _beautify fill_keeps vim_leaves_file ∅ remove_text_example "python" true false.
Proof. vm_compute. discriminate. Qed.

(** ** beautify and its cache *)

Section BeautifyFacts.
Variable textwrap_fill : string -> string.
Variable vim : string -> string -> string.
Variable VIM_NAME : gmap string string.
Variable md5_hexdigest : string -> string.
Context {St : Type} (REDIS : redis_client St).

Lemma beauty_options_lookup (options : gmap string bool) (k : string) :
  k ∈ beauty_keys -> beauty_options_of options !! k = options !! k.
Proof.
  intros Hk. unfold beauty_options_of.
  destruct (options !! k) as [v|] eqn:E.
  - by apply map_lookup_filter_Some.
  - apply map_lookup_filter_None. by left.
Qed.

Lemma beautify_unfold (text lang : string) (options : gmap string bool) (store : St) :
  beautify textwrap_fill vim VIM_NAME md5_hexdigest REDIS text lang
           (Some options) store =
  if bool_decide (beauty_options_of options = ∅) then (Ok text, store)
  else
    match redis_get REDIS (cache_key md5_hexdigest text lang options) store with
    | Raise e => (Raise e, store)
    | Ok cached =>
        if str_truthy cached then (Ok (default "" cached), store)
        else
          let answer :=
            _beautify textwrap_fill vim VIM_NAME text lang
              (default false (options !! "add_comments"))
              (default false (options !! "remove_text")) in
          match redis_set REDIS (cache_key md5_hexdigest text lang options)
                          answer store with
          | Raise e => (Raise e, store)
          | Ok store' => (Ok answer, store')
          end
    end.
Proof.
  rewrite <- !(beauty_options_lookup options) by (unfold beauty_keys; set_solver).
  reflexivity.
Qed.
End BeautifyFacts.

Lemma remove_text_option_kept :
  beauty_options_of {["remove_text" := true]} <> ∅.
Proof.
  apply (bool_decide_eq_false_1 (beauty_options_of {["remove_text" := true]} = ∅)).
  vm_compute. reflexivity.
Qed.

Lemma add_comments_false_option_kept :
  beauty_options_of {["add_comments" := false]} <> ∅.
Proof.
  apply (bool_decide_eq_false_1 (beauty_options_of {["add_comments" := false]} = ∅)).
  vm_compute. reflexivity.
Qed.

(** What a call with options that select a mode returns, by what the cache
    answers. *)
Lemma beautify_outcomes {St : Type}
    textwrap_fill vim VIM_NAME md5_hexdigest (REDIS : redis_client St)
    (text lang : string) (options : gmap string bool) (store : St) :
  beauty_options_of options <> ∅ ->
  let digest := cache_key md5_hexdigest text lang options in
  let answer :=
    _beautify textwrap_fill vim VIM_NAME text lang
      (default false (options !! "add_comments"))
      (default false (options !! "remove_text")) in
  let outcome :=
    beautify textwrap_fill vim VIM_NAME md5_hexdigest REDIS text lang
             (Some options) store in
  (forall e, redis_get REDIS digest store = Raise e -> outcome = (Raise e, store)) /\
  (forall cached e,
     redis_get REDIS digest store = Ok cached -> str_truthy cached = false ->
     redis_set REDIS digest answer store = Raise e ->
     outcome = (Raise e, store)) /\
  (forall cached store',
     redis_get REDIS digest store = Ok cached -> str_truthy cached = false ->
     redis_set REDIS digest answer store = Ok store' ->
     outcome = (Ok answer, store')).
Proof.
  intros Hopts digest answer outcome. subst digest answer outcome.
  rewrite beautify_unfold, bool_decide_eq_false_2 by done. cbv zeta.
  split; [|split].
  - by intros e ->.
  - by intros cached e -> -> ->.
  - by intros cached store' -> -> ->.
Qed.

(** C9, as amended.  [beautify] does not handle cache errors.  For options
    that select a mode, an error raised by the lookup, or by the store that
    follows a miss, is raised by [beautify], which returns no text; it
    returns the text computed by [_beautify] only when the lookup misses and
    the store succeeds. *)
Theorem beautify_cache_error_propagates {St : Type}
    textwrap_fill vim VIM_NAME md5_hexdigest (REDIS : redis_client St)
    (text lang : string) (options : gmap string bool) (store : St) :
  beauty_options_of options <> ∅ ->
  let digest := cache_key md5_hexdigest text lang options in
  let answer :=
    _beautify textwrap_fill vim VIM_NAME text lang
      (default false (options !! "add_comments"))
      (default false (options !! "remove_text")) in
  let outcome :=
    beautify textwrap_fill vim VIM_NAME md5_hexdigest REDIS text lang
             (Some options) store in
  (forall e, redis_get REDIS digest store = Raise e -> outcome = (Raise e, store)) /\
  (forall cached e,
     redis_get REDIS digest store = Ok cached -> str_truthy cached = false ->
     redis_set REDIS digest answer store = Raise e ->
     outcome = (Raise e, store)) /\
  (forall cached store',
     redis_get REDIS digest store = Ok cached -> str_truthy cached = false ->
     redis_set REDIS digest answer store = Ok store' ->
     outcome = (Ok answer, store')).
Proof. apply beautify_outcomes. Qed.

Lemma beautify_cache_error_witness :
  beauty_options_of {["remove_text" := true]} <> ∅ /\
  beautify fill_keeps vim_leaves_file ∅ md5_stub unreachable_redis
           remove_text_example "python" (Some {["remove_text" := true]}) tt =
  (Raise (CacheError "connection refused"), tt).
Proof.
  split; [exact remove_text_option_kept|].
  apply (beautify_cache_error_propagates fill_keeps vim_leaves_file ∅ md5_stub
           unreachable_redis remove_text_example "python"
           {["remove_text" := true]} tt remove_text_option_kept).
  reflexivity.
Defined.

(** C9, as stated, fails: when the lookup raises, and when the store raises
    after a miss, [beautify] does not return the text of [_beautify]. *)
Lemma beautify_cache_error_aborts :
  (~ exists textwrap_fill vim VIM_NAME md5_hexdigest,
       (beautify textwrap_fill vim VIM_NAME md5_hexdigest unreachable_redis
          remove_text_example "python" (Some {["remove_text" := true]}) tt).1 =
       Ok (_beautify textwrap_fill vim VIM_NAME remove_text_example "python"
             false true)) /\
  (~ exists textwrap_fill vim VIM_NAME md5_hexdigest,
       (beautify textwrap_fill vim VIM_NAME md5_hexdigest readonly_redis
          remove_text_example "python" (Some {["remove_text" := true]}) tt).1 =
       Ok (_beautify textwrap_fill vim VIM_NAME remove_text_example "python"
             false true)).
Proof.
  split; intros (textwrap_fill & vim & VIM_NAME & md5_hexdigest & H);
    rewrite beautify_unfold, bool_decide_eq_false_2 in H
      by exact remove_text_option_kept;
    simpl in H; discriminate H.
Qed.

Lemma beauty_options_empty (options : gmap string bool) :
  beauty_options_of options = ∅ <->
  options !! "add_comments" = None /\ options !! "remove_text" = None.
Proof.
  split.
  - intros H.
    rewrite <- !(beauty_options_lookup options) by (unfold beauty_keys; set_solver).
    by rewrite H, !lookup_empty.
  - intros [Ha Hr]. apply map_eq. intros k. rewrite lookup_empty.
    apply map_lookup_filter_None. right. intros v Hv Hk. simpl in Hk.
    unfold beauty_keys in Hk.
    apply elem_of_cons in Hk as [-> | Hk]; [congruence|].
    apply elem_of_cons in Hk as [-> | Hk]; [congruence|].
    by apply elem_of_nil in Hk.
Qed.

(** C10, as amended.  [beautify] returns the text unchanged, without a look
    at the cache, exactly for the options that hold neither [add_comments]
    nor [remove_text]: missing options, the empty dictionary and the
    dictionaries of other keys only (a client whose lookups fail tells these
    apart from the rest).  Options that hold one of the two keys, with both
    flags false, are not of that kind: on a cache miss [beautify] returns
    (and stores under the key of the empty mode) the passthrough text of
    [_beautify], that is the cleaned, classified and reflowed lines joined
    with newlines, where the reflow puts one leading space before every
    non-empty CODE line.  For the text of one code line ["    x = 1"] and the
    options [{"add_comments": False}] the answer is that line with five
    leading spaces. *)
Theorem beautify_false_flag_not_identity {St : Type}
    textwrap_fill vim VIM_NAME md5_hexdigest (REDIS : redis_client St)
    (text lang : string) (store : St) :
  beautify textwrap_fill vim VIM_NAME md5_hexdigest REDIS text lang None store =
    (Ok text, store) /\
  beautify textwrap_fill vim VIM_NAME md5_hexdigest REDIS text lang (Some ∅) store =
    (Ok text, store) /\
  (forall options : gmap string bool,
     (beauty_options_of options = ∅ <->
      options !! "add_comments" = None /\ options !! "remove_text" = None) /\
     (beauty_options_of options = ∅ ->
      beautify textwrap_fill vim VIM_NAME md5_hexdigest REDIS text lang
               (Some options) store = (Ok text, store)) /\
     (beauty_options_of options = ∅ <->
      beautify textwrap_fill vim VIM_NAME md5_hexdigest unreachable_redis
               text lang (Some options) tt = (Ok text, tt))) /\
  (forall options : gmap string bool,
     beauty_options_of options <> ∅ ->
     default false (options !! "add_comments") = false ->
     default false (options !! "remove_text") = false ->
     let digest := cache_key md5_hexdigest text lang options in
     let answer := _beautify textwrap_fill vim VIM_NAME text lang false false in
     digest = "t:" +:+ md5_hexdigest text +:+ ":" +:+ lang +:+ ":" /\
     (forall cached store',
        redis_get REDIS digest store = Ok cached -> str_truthy cached = false ->
        redis_set REDIS digest answer store = Ok store' ->
        beautify textwrap_fill vim VIM_NAME md5_hexdigest REDIS text lang
                 (Some options) store = (Ok answer, store'))) /\
  _beautify textwrap_fill vim VIM_NAME text lang false false =
    (let lines := _cleanup_lines (text_lines text) in
     join (String LF "")
          (map snd (_wrap_lines textwrap_fill (zip (_classify_lines lines) lines)
                                (PyBool false)))) /\
  (forall (line : string) (lines_classes : list (Z * string)),
     _wrap_lines textwrap_fill ((1, line) :: lines_classes) (PyBool false) =
     (1, if bool_decide (line = "") then "" else " " +:+ line)
       :: _wrap_lines textwrap_fill lines_classes (PyBool false)) /\
  beautify textwrap_fill vim VIM_NAME md5_hexdigest memory_redis "    x = 1" lang
           (Some {["add_comments" := false]}) ∅ =
    (Ok "     x = 1",
     {["t:" +:+ md5_hexdigest "    x = 1" +:+ ":" +:+ lang +:+ ":" := "     x = 1"]}).
Proof.
  assert (Hpass : forall {S' : Type} (R : redis_client S') t options cached s s',
    beauty_options_of options <> ∅ ->
    default false (options !! "add_comments") = false ->
    default false (options !! "remove_text") = false ->
    redis_get R (cache_key md5_hexdigest t lang options) s = Ok cached ->
    str_truthy cached = false ->
    redis_set R (cache_key md5_hexdigest t lang options)
      (_beautify textwrap_fill vim VIM_NAME t lang false false) s = Ok s' ->
    beautify textwrap_fill vim VIM_NAME md5_hexdigest R t lang (Some options) s =
    (Ok (_beautify textwrap_fill vim VIM_NAME t lang false false), s')).
  { intros S' R t options cached s s' Hopts Ha Hr Hget Hfalsy Hset.
    destruct (beautify_outcomes textwrap_fill vim VIM_NAME
                md5_hexdigest R t lang options s Hopts) as (_ & _ & H).
    rewrite Ha, Hr in H. apply (H cached s' Hget Hfalsy). exact Hset. }
  assert (Hkey : forall t options,
    default false (options !! "add_comments") = false ->
    default false (options !! "remove_text") = false ->
    cache_key md5_hexdigest t lang options =
    "t:" +:+ md5_hexdigest t +:+ ":" +:+ lang +:+ ":").
  { intros t options Ha Hr. unfold cache_key. cbv zeta.
    rewrite !beauty_options_lookup by (unfold beauty_keys; set_solver).
    by rewrite Ha, Hr. }
  split; [reflexivity|]. split; [reflexivity|].
  split.
  { intros options. split; [apply beauty_options_empty|].
    rewrite !beautify_unfold.
    case_bool_decide as Hopts; simpl; [done|].
    split; [done|]. split; [done | discriminate]. }
  split.
  { intros options Hopts Ha Hr. cbv zeta. split; [by apply Hkey|].
    intros cached store'. by apply Hpass. }
  split; [reflexivity|]. split.
  - intros line lines_classes. rewrite _wrap_lines_cons, wrap_line_code.
    unfold _unindent_code, unindent_shift. simpl.
    destruct (bool_decide (line = "")) eqn:E; simpl; [|done].
    apply bool_decide_eq_true in E. by subst.
  - assert (Ha : default false (({["add_comments" := false]} : gmap string bool)
                                  !! "add_comments") = false) by done.
    assert (Hr : default false (({["add_comments" := false]} : gmap string bool)
                                  !! "remove_text") = false) by done.
    rewrite <- (Hkey "    x = 1" {["add_comments" := false]} Ha Hr).
    apply (Hpass _ memory_redis "    x = 1" {["add_comments" := false]} None ∅);
      [exact add_comments_false_option_kept | exact Ha | exact Hr | | done |].
    + simpl. by rewrite lookup_empty.
    + simpl. f_equal.
Qed.

(** C10, as stated, fails: an options dictionary that is not empty and holds
    neither flag is returned the text unchanged, with no look at the cache,
    though its flags are all false and it is not the empty dictionary. *)
Lemma beautify_foreign_key_identity :
  ({["verbose" := true]} : gmap string bool) <> ∅ /\
  default false (({["verbose" := true]} : gmap string bool) !! "add_comments")
    = false /\
  default false (({["verbose" := true]} : gmap string bool) !! "remove_text")
    = false /\
  beautify fill_keeps vim_leaves_file ∅ md5_stub unreachable_redis
           "    x = 1" "python" (Some {["verbose" := true]}) tt =
    (Ok "    x = 1", tt) /\
  beautify fill_keeps vim_leaves_file ∅ md5_stub memory_redis
           "    x = 1" "python" (Some {["verbose" := true]}) ∅ =
    (Ok "    x = 1", ∅).
Proof.
  assert (H : beauty_options_of {["verbose" := true]} = ∅).
  { apply beauty_options_empty. split; reflexivity. }
  split; [|split; [reflexivity|split; [reflexivity|]]].
  - intros E. apply (f_equal (fun m : gmap string bool => m !! "verbose")) in E.
    rewrite lookup_singleton_eq, lookup_empty in E. discriminate E.
  - rewrite !beautify_unfold, !bool_decide_eq_true_2 by exact H.
    split; reflexivity.
Qed.

(** * Further properties of the module *)

(** ** What the cleanup pass keeps *)

Lemma filter_nonblank_drop (l : list string) :
  filter (fun x => is_blank x = false) (drop (first_nonblank l) l) =
  filter (fun x => is_blank x = false) l.
Proof.
  induction l as [|x l IH]; [done|]. simpl.
  destruct (is_blank x) eqn:E; [|done].
  rewrite filter_cons. case_decide; [congruence | exact IH].
Qed.

Lemma filter_nonblank_take (l : list string) (n : nat) :
  (n <= length l)%nat ->
  filter (fun x => is_blank x = false) (take (last_nonblank l n) l) =
  filter (fun x => is_blank x = false) (take n l).
Proof.
  induction n as [|n IH]; intros Hn; [done|]. simpl last_nonblank.
  destruct (is_blank (l !!! n)) eqn:E; [|done].
  rewrite IH by lia.
  rewrite (take_S_r l n (l !!! n)) by (apply list_lookup_lookup_total_lt; lia).
  rewrite filter_app, filter_cons. case_decide; [congruence|].
  by rewrite filter_nil, app_nil_r.
Qed.

Lemma filter_nonblank_collapse (l : list string) :
  filter (fun x => is_blank x = false) (collapse_blank l) =
  filter (fun x => is_blank x = false) l.
Proof.
  induction l as [|x l IH]; [done|]. rewrite collapse_blank_cons.
  unfold nonblank. destruct (is_blank x) eqn:Ex; simpl.
  - rewrite (filter_cons _ x). case_decide; [congruence|].
    destruct l as [|y l']; [done|].
    destruct (is_blank y) eqn:Ey; simpl; [exact IH|].
    rewrite filter_cons. case_decide; [done | exact IH].
  - destruct l as [|y l']; [done|].
    rewrite !(filter_cons _ x). case_decide; [|congruence]. by rewrite IH.
Qed.

(** X1. The cleanup pass keeps every line that is not blank, in order and
    unchanged: it removes and empties blank lines only. *)
Theorem cleanup_lines_keeps_nonblank (lines : list string) :
  filter (fun x => strip x <> "") (_cleanup_lines lines) =
  filter (fun x => strip x <> "") lines.
Proof.
  assert (Hf : forall l : list string,
    filter (fun x => strip x <> "") l = filter (fun x => is_blank x = false) l).
  { intros l. apply list_filter_iff. intros x. unfold is_blank.
    by rewrite bool_decide_eq_false. }
  rewrite !Hf, _cleanup_lines_alt. cbv zeta.
  rewrite filter_nonblank_collapse, filter_nonblank_take by done.
  rewrite take_ge by done. apply filter_nonblank_drop.
Qed.

Lemma collapse_blank_length (l : list string) :
  (length (collapse_blank l) <= length l)%nat.
Proof.
  induction l as [|x l IH]; [done|]. rewrite collapse_blank_cons.
  destruct l as [|y l']; [by destruct (nonblank x)|].
  destruct (nonblank x); [simpl in *; lia|].
  destruct (nonblank y); simpl in *; lia.
Qed.

Lemma collapse_blank_elem (l : list string) (x : string) :
  x ∈ collapse_blank l -> x ∈ l \/ x = "".
Proof.
  induction l as [|a l IH]; [by left|]. rewrite collapse_blank_cons.
  destruct l as [|y l'].
  { destruct (nonblank a); intros ->%list_elem_of_singleton;
      [left; by left | by right]. }
  destruct (nonblank a).
  - intros [-> | H]%elem_of_cons; [left; by left|].
    destruct (IH H) as [?|?]; [left; by right | by right].
  - destruct (nonblank y).
    + intros [-> | H]%elem_of_cons; [by right|].
      destruct (IH H) as [?|?]; [left; by right | by right].
    + intros H. destruct (IH H) as [?|?]; [left; by right | by right].
Qed.

(** The lines of a cleaned sequence come from its input. *)
Lemma _cleanup_lines_bounds (lines : list string) :
  (length (_cleanup_lines lines) <= length lines)%nat /\
  (forall x, x ∈ _cleanup_lines lines -> x ∈ lines \/ x = "").
Proof.
  rewrite _cleanup_lines_alt. cbv zeta. split.
  - etransitivity; [apply collapse_blank_length|].
    rewrite length_take, length_drop. lia.
  - intros x Hx. apply collapse_blank_elem in Hx as [Hx | ->]; [|by right].
    left. eapply subseteq_drop, subseteq_take, Hx.
Qed.

(** X2. The cleanup pass adds nothing: its result is no longer than its
    input, and each line of the result is a line of the input or is the
    empty line. *)
Theorem cleanup_lines_adds_nothing (lines : list string) :
  (length (_cleanup_lines lines) <= length lines)%nat /\
  (forall x, x ∈ _cleanup_lines lines -> x ∈ lines \/ x = "").
Proof. apply _cleanup_lines_bounds. Qed.

(** ** What the classifier does to each line *)

(** What pass 2 may do to one label before its final map: keep it, or mark
    an undefined label as absorbed. *)
Definition absorbs (a b : Z) : Prop := b = a \/ (a = -1 /\ b = -2).

Lemma lookup_total_Some (l : list Z) (i : nat) (v : Z) :
  (i < length l)%nat -> l !!! i = v -> l !! i = Some v.
Proof. intros Hi <-. by apply list_lookup_lookup_total_lt. Qed.

Lemma absorb_fwd_cond (l : list Z) (i : nat) :
  (l !!! i =? 1) && (l !!! (i + 1)%nat =? -1) = true <->
  l !! i = Some 1 /\ l !! S i = Some (-1).
Proof.
  split.
  - intros [H1 H2]%andb_prop. apply Z.eqb_eq in H1.
    apply lookup_total_undefined in H2. rewrite Nat.add_1_r in H2.
    split; [|done]. apply lookup_total_Some; [|done].
    apply lookup_lt_Some in H2. lia.
  - intros [H1 H2]. destruct (lookup_total_pair l i _ _ H1 H2) as [-> ->]. done.
Qed.

Lemma absorb_bwd_cond (l : list Z) (i : nat) :
  (S i < length l)%nat ->
  (l !!! i =? -1) && (l !!! (i + 1)%nat =? 1) = true <->
  l !! i = Some (-1) /\ l !! S i = Some 1.
Proof.
  intros Hi. split.
  - intros [H1 H2]%andb_prop. apply lookup_total_undefined in H1.
    apply Z.eqb_eq in H2. split; [done|].
    rewrite Nat.add_1_r in H2. by apply lookup_total_Some.
  - intros [H1 H2]. destruct (lookup_total_pair l i _ _ H1 H2) as [-> ->]. done.
Qed.

Lemma absorbs_insert (l0 l : list Z) (j : nat) :
  Forall2 absorbs l0 l -> l !! j = Some (-1) ->
  Forall2 absorbs l0 (<[j := -2]> l).
Proof.
  intros H. revert j. induction H as [|a b l0 l Hab H IH]; intros [|j] Hj;
    simplify_eq/=; constructor; auto.
  destruct Hab as [<- | [-> ?]]; [|done]. right. done.
Qed.

Lemma absorbs_refl (l : list Z) : Forall2 absorbs l l.
Proof. apply Forall_Forall2_diag, Forall_forall. intros x _. by left. Qed.

Lemma absorb_fwd_absorbs (l0 l : list Z) (i : nat) :
  Forall2 absorbs l0 l -> Forall2 absorbs l0 (absorb_fwd l i).
Proof.
  intros H. unfold absorb_fwd. destruct (_ && _) eqn:E; [|done].
  apply absorb_fwd_cond in E as [_ E]. rewrite Nat.add_1_r.
  by apply absorbs_insert.
Qed.

Lemma absorb_bwd_absorbs (l0 l : list Z) (i : nat) :
  Forall2 absorbs l0 l -> Forall2 absorbs l0 (absorb_bwd l i).
Proof.
  intros H. unfold absorb_bwd. destruct (_ && _) eqn:E; [|done].
  apply andb_prop in E as [E _]. apply lookup_total_undefined in E.
  by apply absorbs_insert.
Qed.

(** The scans of pass 2 write over undefined labels only. *)
Lemma absorb_fwd_keeps (l : list Z) (i p : nat) (v : Z) :
  v <> -1 -> l !! p = Some v -> absorb_fwd l i !! p = Some v.
Proof.
  intros Hv Hp. unfold absorb_fwd. destruct (_ && _) eqn:E; [|done].
  apply absorb_fwd_cond in E as [_ E]. rewrite Nat.add_1_r.
  rewrite list_lookup_insert_ne; [done | congruence].
Qed.

Lemma absorb_bwd_keeps (l : list Z) (i p : nat) (v : Z) :
  v <> -1 -> l !! p = Some v -> absorb_bwd l i !! p = Some v.
Proof.
  intros Hv Hp. unfold absorb_bwd. destruct (_ && _) eqn:E; [|done].
  apply andb_prop in E as [E _]. apply lookup_total_undefined in E.
  rewrite list_lookup_insert_ne; [done | congruence].
Qed.

Lemma foldl_absorb_fwd_keeps (ixs : list nat) (l : list Z) (p : nat) (v : Z) :
  v <> -1 -> l !! p = Some v -> foldl absorb_fwd l ixs !! p = Some v.
Proof.
  intros Hv. revert l. induction ixs as [|i ixs IH]; intros l Hp; [done|].
  apply IH. by apply absorb_fwd_keeps.
Qed.

Lemma foldl_absorb_bwd_keeps (ixs : list nat) (l : list Z) (p : nat) (v : Z) :
  v <> -1 -> l !! p = Some v -> foldl absorb_bwd l ixs !! p = Some v.
Proof.
  intros Hv. revert l. induction ixs as [|i ixs IH]; intros l Hp; [done|].
  apply IH. by apply absorb_bwd_keeps.
Qed.

(** An undefined label stays undefined or becomes absorbed. *)
Lemma absorb_fwd_pending (l : list Z) (i p : nat) :
  l !! p = Some (-1) \/ l !! p = Some (-2) ->
  absorb_fwd l i !! p = Some (-1) \/ absorb_fwd l i !! p = Some (-2).
Proof.
  intros [Hp | Hp]; [|right; by apply absorb_fwd_keeps].
  unfold absorb_fwd. destruct (_ && _) eqn:E; [|by left].
  destruct (decide (p = (i + 1)%nat)) as [->|Hne].
  - right. apply list_lookup_insert_eq. by eapply lookup_lt_Some.
  - left. by rewrite list_lookup_insert_ne.
Qed.

Lemma absorb_bwd_pending (l : list Z) (i p : nat) :
  l !! p = Some (-1) \/ l !! p = Some (-2) ->
  absorb_bwd l i !! p = Some (-1) \/ absorb_bwd l i !! p = Some (-2).
Proof.
  intros [Hp | Hp]; [|right; by apply absorb_bwd_keeps].
  unfold absorb_bwd. destruct (_ && _) eqn:E; [|by left].
  destruct (decide (p = i)) as [->|Hne].
  - right. apply list_lookup_insert_eq. by eapply lookup_lt_Some.
  - left. by rewrite list_lookup_insert_ne.
Qed.

(** The forward scan marks the undefined label after a code label, the
    backward scan the undefined label before one. *)
Lemma foldl_absorb_fwd_marks (ixs : list nat) (l : list Z) (j : nat) :
  j ∈ ixs -> l !! j = Some 1 ->
  l !! S j = Some (-1) \/ l !! S j = Some (-2) ->
  foldl absorb_fwd l ixs !! S j = Some (-2).
Proof.
  revert l. induction ixs as [|i ixs IH]; intros l Hj H1 H2.
  { by apply elem_of_nil in Hj. }
  change (foldl absorb_fwd l (i :: ixs)) with (foldl absorb_fwd (absorb_fwd l i) ixs).
  destruct (decide (i = j)) as [->|Hne].
  - apply foldl_absorb_fwd_keeps; [done|].
    destruct H2 as [H2 | H2]; [|by apply absorb_fwd_keeps].
    unfold absorb_fwd.
    rewrite (proj2 (absorb_fwd_cond l j)) by done.
    rewrite Nat.add_1_r. apply list_lookup_insert_eq. by eapply lookup_lt_Some.
  - apply elem_of_cons in Hj as [-> | Hj]; [done|].
    apply IH; [done | by apply absorb_fwd_keeps | by apply absorb_fwd_pending].
Qed.

Lemma foldl_absorb_bwd_marks (ixs : list nat) (l : list Z) (j : nat) :
  j ∈ ixs -> l !! S j = Some 1 ->
  l !! j = Some (-1) \/ l !! j = Some (-2) ->
  foldl absorb_bwd l ixs !! j = Some (-2).
Proof.
  revert l. induction ixs as [|i ixs IH]; intros l Hj H1 H2.
  { by apply elem_of_nil in Hj. }
  change (foldl absorb_bwd l (i :: ixs)) with (foldl absorb_bwd (absorb_bwd l i) ixs).
  destruct (decide (i = j)) as [->|Hne].
  - apply foldl_absorb_bwd_keeps; [done|].
    destruct H2 as [H2 | H2]; [|by apply absorb_bwd_keeps].
    unfold absorb_bwd.
    rewrite (proj2 (absorb_bwd_cond l j ltac:(by eapply lookup_lt_Some))) by done.
    apply list_lookup_insert_eq. by eapply lookup_lt_Some.
  - apply elem_of_cons in Hj as [-> | Hj]; [done|].
    apply IH; [done | by apply absorb_bwd_keeps | by apply absorb_bwd_pending].
Qed.

Lemma range_pred_elem (n j : nat) : j ∈ range_pred n <-> (S j < n)%nat.
Proof. unfold range_pred. rewrite elem_of_seq. lia. Qed.

Lemma pass2_lookup (l : list Z) (p : nat) :
  pass2 l !! p =
  (fun x => if x =? -2 then 1 else x) <$>
    foldl absorb_bwd (foldl absorb_fwd l (range_pred (length l)))
      (rev (range_pred (length (foldl absorb_fwd l (range_pred (length l))))))
    !! p.
Proof.
  unfold pass2. change (map ?f ?k) with (f <$> k). apply list_lookup_fmap.
Qed.

Lemma pass2_keeps (l : list Z) (p : nat) (v : Z) :
  v <> -1 -> v <> -2 -> l !! p = Some v -> pass2 l !! p = Some v.
Proof.
  intros H1 H2 Hp. rewrite pass2_lookup.
  rewrite (foldl_absorb_bwd_keeps _ _ p v H1); simpl.
  - destruct (v =? -2) eqn:E; [|done]. apply Z.eqb_eq in E. done.
  - by apply foldl_absorb_fwd_keeps.
Qed.

Lemma pass2_after_code (l : list Z) (j : nat) :
  l !! j = Some 1 -> l !! S j = Some (-1) -> pass2 l !! S j = Some 1.
Proof.
  intros H1 H2. rewrite pass2_lookup.
  rewrite (foldl_absorb_bwd_keeps _ _ (S j) (-2)); [done | done |].
  apply foldl_absorb_fwd_marks; [|done | by left].
  apply range_pred_elem. apply lookup_lt_Some in H2. lia.
Qed.

Lemma foldl_absorb_fwd_length (ixs : list nat) (l : list Z) :
  length (foldl absorb_fwd l ixs) = length l.
Proof.
  revert l. induction ixs as [|i ixs IH]; intros l; [done|]. simpl.
  rewrite IH. unfold absorb_fwd. destruct (_ && _); [apply length_insert | done].
Qed.

Lemma foldl_absorb_fwd_absorbs (ixs : list nat) (l0 l : list Z) :
  Forall2 absorbs l0 l -> Forall2 absorbs l0 (foldl absorb_fwd l ixs).
Proof.
  revert l. induction ixs as [|i ixs IH]; intros l H; [done|].
  apply IH. by apply absorb_fwd_absorbs.
Qed.

Lemma foldl_absorb_bwd_absorbs (ixs : list nat) (l0 l : list Z) :
  Forall2 absorbs l0 l -> Forall2 absorbs l0 (foldl absorb_bwd l ixs).
Proof.
  revert l. induction ixs as [|i ixs IH]; intros l H; [done|].
  apply IH. by apply absorb_bwd_absorbs.
Qed.

Lemma pass2_before_code (l : list Z) (j : nat) :
  l !! j = Some (-1) -> l !! S j = Some 1 -> pass2 l !! j = Some 1.
Proof.
  intros H1 H2. rewrite pass2_lookup.
  set (l1 := foldl absorb_fwd l (range_pred (length l))).
  assert (Hl1 : Forall2 absorbs l l1) by apply foldl_absorb_fwd_absorbs, absorbs_refl.
  rewrite (foldl_absorb_bwd_marks _ l1 j); [done | | |].
  - rewrite list_elem_of_In, <- in_rev, <- list_elem_of_In, range_pred_elem.
    unfold l1. rewrite foldl_absorb_fwd_length. apply lookup_lt_Some in H2. lia.
  - by apply foldl_absorb_fwd_keeps.
  - destruct (Forall2_lookup_l _ _ _ j _ Hl1 H1) as (b & Hb & [-> | [_ ->]]); auto.
Qed.

Lemma pass3_keeps (l : list Z) (p : nat) (v : Z) :
  v <> -1 -> l !! p = Some v -> pass3 l !! p = Some v.
Proof.
  intros Hv Hp. rewrite pass3_eq.
  destruct (Forall2_lookup_l _ _ _ p _ (pass3_body_resolves l) Hp)
    as (b & Hb & [-> | [? _]]); done.
Qed.

Lemma _classify_lines_lookup (lines : list string) (p : nat) :
  _classify_lines lines !! p =
  (fun x => if x =? -1 then 1 else x) <$>
    pass3 (pass2 (map _line_type lines)) !! p.
Proof.
  unfold _classify_lines. change (map ?f ?k) with (f <$> k) at 1.
  apply list_lookup_fmap.
Qed.

Lemma _line_type_lookup (lines : list string) (p : nat) (line : string) :
  lines !! p = Some line -> map _line_type lines !! p = Some (_line_type line).
Proof.
  intros Hp. change (map ?f ?k) with (f <$> k). by rewrite list_lookup_fmap, Hp.
Qed.

Lemma _line_type_blank_iff (line : string) :
  _line_type line = -1 <-> strip line = "".
Proof.
  unfold _line_type. case_bool_decide; [done|].
  split; [|done]. by repeat (destruct (_ || _) || destruct (startswith _ _)).
Qed.

(** X3. A line that is not blank gets the label of the per-line rule: the
    repair passes of the classifier change the labels of blank lines only. *)
Theorem classify_lines_nonblank (lines : list string) (i : nat) (line : string) :
  lines !! i = Some line -> strip line <> "" ->
  _classify_lines lines !! i = Some (_line_type line).
Proof.
  intros Hi Hline.
  assert (H1 : _line_type line <> -1) by (by rewrite _line_type_blank_iff).
  assert (H2 : _line_type line <> -2).
  { destruct (_line_type_open line) as [E | [E | E]]; rewrite E; done. }
  rewrite _classify_lines_lookup.
  rewrite (pass3_keeps _ i (_line_type line) H1); simpl.
  - destruct (_line_type line =? -1) eqn:E; [|done]. by apply Z.eqb_eq in E.
  - apply pass2_keeps; [done | done |]. by apply _line_type_lookup.
Qed.

Lemma classify_lines_nonblank_witness :
  ["text"; "    1. item"; "    code"] !! 1%nat = Some "    1. item" /\
  strip "    1. item" <> "" /\
  _classify_lines ["text"; "    1. item"; "    code"] !! 1%nat = Some 0.
Proof.
  split; [reflexivity|]. split; [by vm_compute|].
  apply (classify_lines_nonblank ["text"; "    1. item"; "    code"] 1 "    1. item");
    [reflexivity | by vm_compute].
Defined.

(** X4. A blank line directly after a line of code, and a blank line
    directly before one, is labelled CODE. *)
Theorem classify_lines_blank_next_to_code (lines : list string) (i : nat)
    (a b : string) :
  lines !! i = Some a -> lines !! S i = Some b ->
  (_line_type a = 1 -> strip b = "" -> _classify_lines lines !! S i = Some 1) /\
  (strip a = "" -> _line_type b = 1 -> _classify_lines lines !! i = Some 1).
Proof.
  intros Ha Hb.
  pose proof (_line_type_lookup lines i a Ha) as Ta.
  pose proof (_line_type_lookup lines (S i) b Hb) as Tb.
  split; intros H1 H2.
  - apply _line_type_blank_iff in H2. rewrite H1 in Ta. rewrite H2 in Tb.
    rewrite _classify_lines_lookup.
    by rewrite (pass3_keeps _ (S i) 1) by (done || by apply pass2_after_code).
  - apply _line_type_blank_iff in H1. rewrite H1 in Ta. rewrite H2 in Tb.
    rewrite _classify_lines_lookup.
    by rewrite (pass3_keeps _ i 1) by (done || by apply pass2_before_code).
Qed.

Lemma classify_lines_blank_next_to_code_witness :
  ["text"; ""; "    code"; ""; "text"] !! 2%nat = Some "    code" /\
  ["text"; ""; "    code"; ""; "text"] !! 3%nat = Some "" /\
  _line_type "    code" = 1 /\ strip "" = "" /\
  _classify_lines ["text"; ""; "    code"; ""; "text"] !! 3%nat = Some 1.
Proof.
  split; [reflexivity|]. split; [reflexivity|].
  split; [reflexivity|]. split; [reflexivity|].
  apply (proj1 (classify_lines_blank_next_to_code
                  ["text"; ""; "    code"; ""; "text"] 2 "    code" ""
                  eq_refl eq_refl));
    reflexivity.
Defined.

(** ** Documents of one kind *)

Lemma stable_no_text (l : list Z) : Forall (fun x => x <> 0) l -> stable l.
Proof.
  intros Hl i. split; intros [B1 B2].
  - by apply (Forall_lookup_1 _ _ _ _ Hl B1).
  - by apply (Forall_lookup_1 _ _ _ _ Hl B2).
Qed.

Lemma pass2_pointwise (l : list Z) (i : nat) (x y : Z) :
  open_label x -> l !! i = Some x -> pass2 l !! i = Some y ->
  y = x \/ (x = -1 /\ y = 1).
Proof.
  intros Hx Hl Hy. rewrite pass2_lookup in Hy.
  set (l1 := foldl absorb_fwd l (range_pred (length l))) in *.
  assert (H2 : Forall2 absorbs l
    (foldl absorb_bwd l1 (rev (range_pred (length l1))))).
  { apply foldl_absorb_bwd_absorbs, foldl_absorb_fwd_absorbs, absorbs_refl. }
  destruct (Forall2_lookup_l _ _ _ i _ H2 Hl) as (b & Hb & Hab).
  rewrite Hb in Hy. simpl in Hy. injection Hy as <-.
  destruct Hab as [-> | [-> ->]]; [|by right].
  left. destruct Hx as [-> | [-> | ->]]; done.
Qed.

Lemma all_equal_replicate (l : list Z) (v : Z) :
  Forall (fun x => x = v) l -> l = replicate (length l) v.
Proof.
  intros H. symmetry. apply replicate_as_Forall. split; [done|].
  eapply Forall_impl; [exact H|]. by intros x ->.
Qed.

Lemma _classify_lines_length (lines : list string) :
  length (_classify_lines lines) = length lines.
Proof.
  unfold _classify_lines. rewrite length_map, pass3_length.
  assert (H0 : Forall open_label (map _line_type lines)).
  { apply List.Forall_map, Forall_forall. intros x _. apply _line_type_open. }
  rewrite (proj2 (pass2_open _ H0)). apply length_map.
Qed.

(** Without a text line nothing stops the final resolution to CODE. *)
Lemma _classify_lines_no_text (lines : list string) :
  Forall (fun line => _line_type line <> 0) lines ->
  _classify_lines lines = replicate (length lines) 1.
Proof.
  intros Hlines.
  rewrite <- (_classify_lines_length lines). apply all_equal_replicate.
  apply Forall_lookup. intros i y Hy.
  rewrite _classify_lines_lookup in Hy.
  set (l0 := map _line_type lines) in *.
  assert (H0 : Forall (fun x => x <> 0) l0).
  { unfold l0. by apply List.Forall_map. }
  assert (Hopen : Forall open_label l0).
  { unfold l0. apply List.Forall_map, Forall_forall. intros x _.
    apply _line_type_open. }
  assert (H2 : Forall (fun x => x <> 0) (pass2 l0)).
  { apply Forall_lookup. intros j b Hb.
    assert (Hj : (j < length l0)%nat).
    { apply lookup_lt_Some in Hb. by rewrite (proj2 (pass2_open l0 Hopen)) in Hb. }
    destruct (lookup_lt_is_Some_2 l0 j Hj) as [a Ha].
    pose proof (Forall_lookup_1 _ _ _ _ H0 Ha) as Ha0.
    pose proof (Forall_lookup_1 _ _ _ _ Hopen Ha) as Hao.
    destruct (pass2_pointwise l0 j a b Hao Ha Hb) as [-> | [_ ->]];
      [exact Ha0 | done]. }
  rewrite pass3_eq, pass3_body_fixed in Hy by (by apply stable_no_text).
  cbn [fst] in Hy.
  destruct (pass2 l0 !! i) as [b|] eqn:Hb; [|done].
  simpl in Hy. injection Hy as <-.
  pose proof (Forall_lookup_1 _ _ _ _ H2 Hb) as Hb0. cbv beta in Hb0.
  pose proof (Forall_lookup_1 _ _ _ _ (proj1 (pass2_open l0 Hopen)) Hb)
    as [-> | [-> | ->]]; done.
Qed.

(** X5. A document without a text line (every line is blank or code) is
    labelled CODE throughout. *)
Theorem classify_lines_without_text (lines : list string) :
  Forall (fun line => _line_type line <> 0) lines ->
  _classify_lines lines = replicate (length lines) 1.
Proof. apply _classify_lines_no_text. Qed.

Lemma classify_lines_without_text_witness :
  Forall (fun line => _line_type line <> 0) ["    a"; ""; ""; ""; "    b"] /\
  _classify_lines ["    a"; ""; ""; ""; "    b"] = [1; 1; 1; 1; 1].
Proof.
  assert (H : Forall (fun line => _line_type line <> 0)
                     ["    a"; ""; ""; ""; "    b"]).
  { repeat constructor; by vm_compute. }
  split; [exact H|].
  exact (classify_lines_without_text ["    a"; ""; ""; ""; "    b"] H).
Defined.

Lemma foldl_absorb_fwd_no_code (ixs : list nat) (l : list Z) :
  Forall (fun x => x <> 1) l -> foldl absorb_fwd l ixs = l.
Proof.
  intros Hl. induction ixs as [|i ixs IH]; [done|].
  change (foldl absorb_fwd l (i :: ixs)) with (foldl absorb_fwd (absorb_fwd l i) ixs).
  replace (absorb_fwd l i) with l; [done|].
  unfold absorb_fwd. destruct (_ && _) eqn:E; [|done].
  apply absorb_fwd_cond in E as [E _].
  by destruct (Forall_lookup_1 _ _ _ _ Hl E).
Qed.

Lemma foldl_absorb_bwd_no_code (ixs : list nat) (l : list Z) :
  Forall (fun x => x <> 1) l -> Forall (fun i => (S i < length l)%nat) ixs ->
  foldl absorb_bwd l ixs = l.
Proof.
  intros Hl. induction 1 as [|i ixs Hi _ IH]; [done|].
  change (foldl absorb_bwd l (i :: ixs)) with (foldl absorb_bwd (absorb_bwd l i) ixs).
  replace (absorb_bwd l i) with l; [done|].
  unfold absorb_bwd. destruct (_ && _) eqn:E; [|done].
  apply absorb_bwd_cond in E as [_ E]; [|done].
  by destruct (Forall_lookup_1 _ _ _ _ Hl E).
Qed.

Lemma pass2_no_code (l : list Z) :
  Forall (fun x => x = -1 \/ x = 0) l -> pass2 l = l.
Proof.
  intros Hl.
  assert (H1 : Forall (fun x => x <> 1) l).
  { eapply Forall_impl; [exact Hl|]. intros x [-> | ->]; done. }
  unfold pass2.
  rewrite (foldl_absorb_fwd_no_code _ l H1).
  rewrite (foldl_absorb_bwd_no_code _ l H1).
  - rewrite <- (map_id l) at 2. apply map_ext_Forall.
    eapply Forall_impl; [exact Hl|]. intros x [-> | ->]; done.
  - apply Forall_forall. intros i Hi.
    rewrite list_elem_of_In, <- in_rev, <- list_elem_of_In, range_pred_elem in Hi.
    done.
Qed.

(** In a label array that both scans leave alone and that holds text and
    undefined labels only, neighbours are equal. *)
Lemma stable_neighbours (l : list Z) (i : nat) (a b : Z) :
  stable l -> Forall (fun x => x = -1 \/ x = 0) l ->
  l !! i = Some a -> l !! S i = Some b -> a = b.
Proof.
  intros Hs Hl Ha Hb.
  destruct (Forall_lookup_1 _ _ _ _ Hl Ha) as [-> | ->];
    destruct (Forall_lookup_1 _ _ _ _ Hl Hb) as [-> | ->]; try done.
  - by destruct (proj2 (Hs i)).
  - by destruct (proj1 (Hs i)).
Qed.

Lemma stable_constant (l : list Z) (i : nat) (h x : Z) :
  stable l -> Forall (fun x => x = -1 \/ x = 0) l ->
  l !! 0%nat = Some h -> l !! i = Some x -> x = h.
Proof.
  intros Hs Hl Hh. revert x. induction i as [|i IH]; intros x Hx; [congruence|].
  destruct (lookup_lt_is_Some_2 l i) as [a Ha].
  { apply lookup_lt_Some in Hx. lia. }
  rewrite <- (IH a Ha). symmetry. by apply (stable_neighbours l i a x).
Qed.

(** Without a line of code the text labels spread over the whole document. *)
Lemma _classify_lines_no_code (lines : list string) :
  Forall (fun line => _line_type line <> 1) lines ->
  Exists (fun line => _line_type line = 0) lines ->
  _classify_lines lines = replicate (length lines) 0.
Proof.
  intros Hlines Htext.
  rewrite <- (_classify_lines_length lines). apply all_equal_replicate.
  unfold _classify_lines.
  set (l0 := map _line_type lines).
  assert (H0 : Forall (fun x => x = -1 \/ x = 0) l0).
  { unfold l0. apply List.Forall_map. eapply Forall_impl; [exact Hlines|].
    intros x Hx. simpl. destruct (_line_type_open x) as [E | [E | E]]; auto. done. }
  rewrite (pass2_no_code l0 H0), pass3_eq.
  set (r := (pass3_body l0).1).
  assert (Hr : Forall (fun x => x = -1 \/ x = 0) r).
  { apply (Forall2_Forall_r _ _ _ _ (pass3_body_resolves l0)).
    eapply Forall_impl; [exact H0|].
    intros a Ha b [-> | [_ ->]]; [done | by right]. }
  assert (Hzero : exists p, r !! p = Some 0).
  { apply Exists_exists in Htext as (line & Hin & Hline).
    apply list_elem_of_lookup in Hin as [p Hp]. exists p.
    pose proof (_line_type_lookup lines p line Hp) as Hl0. rewrite Hline in Hl0.
    destruct (Forall2_lookup_l _ _ _ p _ (pass3_body_resolves l0) Hl0)
      as (b & Hb & [-> | [? _]]); done. }
  destruct Hzero as [p Hp].
  assert (Hs : stable r) by apply pass3_body_stable.
  destruct (lookup_lt_is_Some_2 r 0) as [h Hh].
  { apply lookup_lt_Some in Hp. lia. }
  pose proof (stable_constant r p h 0 Hs Hr Hh Hp) as <-.
  apply List.Forall_map, Forall_lookup. intros i x Hx.
  by rewrite (stable_constant r i 0 x Hs Hr Hh Hx).
Qed.

(** X6. A document without a line of code, but with a text line, is
    labelled TEXT throughout. *)
Theorem classify_lines_without_code (lines : list string) :
  Forall (fun line => _line_type line <> 1) lines ->
  Exists (fun line => _line_type line = 0) lines ->
  _classify_lines lines = replicate (length lines) 0.
Proof. apply _classify_lines_no_code. Qed.

Lemma classify_lines_without_code_witness :
  Forall (fun line => _line_type line <> 1) [""; ""; "* item"; ""; "  text"; ""] /\
  Exists (fun line => _line_type line = 0) [""; ""; "* item"; ""; "  text"; ""] /\
  _classify_lines [""; ""; "* item"; ""; "  text"; ""] = [0; 0; 0; 0; 0; 0].
Proof.
  assert (H1 : Forall (fun line => _line_type line <> 1)
                      [""; ""; "* item"; ""; "  text"; ""]).
  { repeat constructor; by vm_compute. }
  assert (H2 : Exists (fun line => _line_type line = 0)
                      [""; ""; "* item"; ""; "  text"; ""]).
  { do 2 apply Exists_cons_tl. apply Exists_cons_hd. reflexivity. }
  split; [exact H1|]. split; [exact H2|].
  exact (classify_lines_without_code [""; ""; "* item"; ""; "  text"; ""] H1 H2).
Defined.

(** ** Shifting code lines *)

Lemma prefix_drop_chars (p s : string) :
  String.prefix p s = true -> p +:+ drop_chars (String.length p) s = s.
Proof.
  revert s. induction p as [|a p IH]; intros s H; [done|].
  destruct s as [|b s]; [done|]. simpl in *.
  destruct (ascii_dec a b) as [->|]; [|done].
  change (String b (p +:+ drop_chars (String.length p) s) = String b s).
  f_equal. by apply IH.
Qed.

Lemma replicate_char_length (n : nat) (c : ascii) :
  String.length (replicate_char n c) = n.
Proof. induction n as [|n IH]; [done|]. simpl. by rewrite IH. Qed.

(** X7. Shifting a code line right by the passthrough shift (-1) and then
    left by one restores the line, the empty line included. *)
Theorem unindent_code_round_trip (line : string) :
  _unindent_code (_unindent_code line (-1)) 1 = line.
Proof.
  unfold _unindent_code at 2. simpl.
  case_bool_decide as E; simpl; [by subst|].
  unfold _unindent_code. simpl.
  destruct (ascii_dec " " " "); [|done].
  by destruct line.
Qed.

(** X8. With a positive shift [_unindent_code] removes exactly that many
    leading spaces when the line starts with them, and otherwise returns the
    line as it is: it never removes a part of a shorter indentation. *)
Theorem unindent_code_positive_shift (line : string) (shift : Z) :
  0 < shift ->
  (startswith (replicate_char (Z.to_nat shift) " ") line = true /\
   replicate_char (Z.to_nat shift) " " +:+ _unindent_code line shift = line) \/
  (startswith (replicate_char (Z.to_nat shift) " ") line = false /\
   _unindent_code line shift = line).
Proof.
  intros Hs. unfold _unindent_code.
  replace (shift =? -1) with false by (symmetry; apply Z.eqb_neq; lia).
  replace (0 <? shift) with true by (symmetry; apply Z.ltb_lt; lia).
  simpl. destruct (startswith _ line) eqn:E; [left | right]; split; try done.
  unfold startswith in E. apply prefix_drop_chars in E.
  by rewrite replicate_char_length in E.
Qed.

Lemma unindent_code_positive_shift_witness :
  0 < 3 /\
  (startswith (replicate_char (Z.to_nat 3) " ") "  two" = false /\
   _unindent_code "  two" 3 = "  two").
Proof.
  split; [lia|].
  destruct (unindent_code_positive_shift "  two" 3 ltac:(lia)) as [[H _] | H].
  - vm_compute in H. discriminate H.
  - exact H.
Defined.

(** ** Reflow, line by line *)

Lemma _wrap_lines_app textwrap_fill (u : py_flag) (l1 l2 : list (Z * string)) :
  _wrap_lines textwrap_fill (l1 ++ l2) u =
  _wrap_lines textwrap_fill l1 u ++ _wrap_lines textwrap_fill l2 u.
Proof.
  induction l1 as [|x l1 IH]; [done|].
  rewrite <- app_comm_cons, !_wrap_lines_cons, IH. by rewrite app_assoc.
Qed.

Lemma wrap_line_labels textwrap_fill (u : py_flag) (x : Z * string) :
  Forall (fun y : Z * string => y.1 = x.1) (wrap_line textwrap_fill u [] x).
Proof.
  destruct (decide (x.1 = 1)) as [E | E].
  - destruct x as [k line]. simpl in E. subst k.
    rewrite wrap_line_code. by repeat constructor.
  - by apply wrap_line_text.
Qed.

Lemma _wrap_lines_labels textwrap_fill (u : py_flag) (lc : list (Z * string))
    (y : Z * string) :
  y ∈ _wrap_lines textwrap_fill lc u -> exists x, x ∈ lc /\ y.1 = x.1.
Proof.
  induction lc as [|x lc IH]; intros Hy.
  { by apply elem_of_nil in Hy. }
  rewrite _wrap_lines_cons in Hy. apply elem_of_app in Hy as [Hy | Hy].
  - exists x. split; [by left|].
    pose proof (wrap_line_labels textwrap_fill u x) as Hl.
    rewrite Forall_forall in Hl. by apply Hl.
  - destruct (IH Hy) as (x' & Hx' & E). exists x'. split; [by right | done].
Qed.

(** X9. The reflow works line by line and keeps the code: the reflow of two
    documents in a row is the two reflows in a row; every CODE line comes
    out as one CODE line, shifted by [_unindent_code], in the same order;
    and every label of the result is the label of a line of the input. *)
Theorem wrap_lines_line_by_line textwrap_fill (u : py_flag)
    (l1 l2 : list (Z * string)) :
  _wrap_lines textwrap_fill (l1 ++ l2) u =
    _wrap_lines textwrap_fill l1 u ++ _wrap_lines textwrap_fill l2 u /\
  map snd (filter (fun line : Z * string => line.1 = 1)
                  (_wrap_lines textwrap_fill l1 u)) =
    map (fun x : Z * string => _unindent_code x.2 (unindent_shift u))
        (filter (fun line : Z * string => line.1 = 1) l1) /\
  (forall y, y ∈ _wrap_lines textwrap_fill l1 u -> exists x, x ∈ l1 /\ y.1 = x.1).
Proof.
  split; [apply _wrap_lines_app|]. split; [apply _wrap_lines_code|].
  intros y. apply _wrap_lines_labels.
Qed.

(** ** The commenting script *)

(** The number of lines of a sequence of blocks, and the number of its TEXT
    blocks. *)
Definition block_lines (blocks : list (Z * list (Z * string))) : Z :=
  foldr (fun (b : Z * list (Z * string)) n => Z.of_nat (length b.2) + n) 0 blocks.

Definition text_blocks (blocks : list (Z * list (Z * string))) : nat :=
  length (filter (fun b : Z * list (Z * string) => b.1 = 0) blocks).

(** The commands [commenting_step] puts in front of the script for a TEXT
    block on the lines [block_start] to [block_end]. *)
Definition text_block_commands (filetype : string) (block_start block_end : Z)
    : list string :=
  let comment_type :=
    if (block_end - block_start <? 1) || bool_decide (filetype = "ruby")
    then "comment" else "sexy" in
  [str_of_int block_start +:+ "," +:+ str_of_int block_end
     +:+ " call NERDComment(1, 'uncomment')";
   str_of_int block_start +:+ "," +:+ str_of_int block_end
     +:+ " call NERDComment(1, '" +:+ comment_type +:+ "')"].

(** The script lines the loop of [_commenting_script] has gathered after the
    given blocks, the first of which starts at [block_start]. *)
Fixpoint script_body (filetype : string) (block_start : Z)
    (blocks : list (Z * list (Z * string))) : list string :=
  match blocks with
  | [] => []
  | b :: blocks' =>
      let block_end := block_start + Z.of_nat (length b.2) - 1 in
      script_body filetype (block_end + 1) blocks' ++
      (if b.1 =? 0 then text_block_commands filetype block_start block_end else [])
  end.

Lemma commenting_fold (filetype : string) (blocks : list (Z * list (Z * string)))
    (acc : list string) (block_start : Z) :
  foldl (commenting_step filetype) (acc, block_start) blocks =
  (script_body filetype block_start blocks ++ acc,
   block_start + block_lines blocks).
Proof.
  revert acc block_start. induction blocks as [|b blocks IH]; intros acc s.
  { simpl. by rewrite Z.add_0_r. }
  change (foldl (commenting_step filetype) (acc, s) (b :: blocks))
    with (foldl (commenting_step filetype)
            (commenting_step filetype (acc, s) b) blocks).
  unfold commenting_step at 2. cbv zeta. rewrite IH. simpl.
  f_equal; [|lia]. rewrite <- app_assoc. f_equal.
  unfold text_block_commands. by destruct (b.1 =? 0).
Qed.

Lemma _commenting_script_body VIM_NAME (blocks : list (Z * list (Z * string)))
    (filetype : string) :
  _commenting_script VIM_NAME blocks filetype =
  ("set ft=" +:+ _language_name VIM_NAME filetype)
    :: script_body filetype 1 blocks ++ ["wq"].
Proof.
  unfold _commenting_script. rewrite commenting_fold. by rewrite app_nil_r.
Qed.

Lemma script_body_length (filetype : string) (block_start : Z)
    (blocks : list (Z * list (Z * string))) :
  length (script_body filetype block_start blocks) = (2 * text_blocks blocks)%nat.
Proof.
  unfold text_blocks. revert block_start.
  induction blocks as [|b blocks IH]; intros s; [done|].
  simpl. rewrite length_app, IH, filter_cons.
  destruct (b.1 =? 0) eqn:E.
  - apply Z.eqb_eq in E. case_decide; [|done]. simpl. lia.
  - apply Z.eqb_neq in E. case_decide; [done|]. simpl. lia.
Qed.

Lemma script_body_app (filetype : string) (block_start : Z)
    (pre post : list (Z * list (Z * string))) :
  script_body filetype block_start (pre ++ post) =
  script_body filetype (block_start + block_lines pre) post ++
  script_body filetype block_start pre.
Proof.
  revert block_start. induction pre as [|b pre IH]; intros s.
  { simpl. by rewrite Z.add_0_r, app_nil_r. }
  simpl. rewrite IH, <- app_assoc. f_equal. f_equal. lia.
Qed.

(** X10. The commenting script opens with the file type command for the vim
    name of the language, closes with [wq], and holds two commands for every
    TEXT block and none for a CODE block. *)
Theorem commenting_script_shape VIM_NAME (lines_blocks : list (Z * list (Z * string)))
    (filetype : string) :
  head (_commenting_script VIM_NAME lines_blocks filetype) =
    Some ("set ft=" +:+ _language_name VIM_NAME filetype) /\
  last (_commenting_script VIM_NAME lines_blocks filetype) = Some "wq" /\
  length (_commenting_script VIM_NAME lines_blocks filetype) =
    (2 * text_blocks lines_blocks + 2)%nat.
Proof.
  rewrite _commenting_script_body. split; [done|]. split.
  - by rewrite last_cons, last_snoc.
  - simpl. rewrite length_app, script_body_length. simpl. lia.
Qed.

(** X11. A TEXT block is uncommented and then commented on its own lines,
    counted from 1 over the blocks before it; the style is [comment] for a
    block of one line and for ruby, [sexy] otherwise.  The commands of the
    blocks after it stand before its two commands in the script and the
    commands of the blocks before it stand after them. *)
Theorem commenting_script_block VIM_NAME (filetype : string)
    (pre post : list (Z * list (Z * string))) (b : Z * list (Z * string)) :
  b.1 = 0 ->
  let block_start := 1 + block_lines pre in
  let block_end := block_start + Z.of_nat (length b.2) - 1 in
  let comment_type :=
    if bool_decide ((length b.2 <= 1)%nat \/ filetype = "ruby")
    then "comment" else "sexy" in
  exists before after,
    _commenting_script VIM_NAME (pre ++ b :: post) filetype =
      before ++
      [str_of_int block_start +:+ "," +:+ str_of_int block_end
         +:+ " call NERDComment(1, 'uncomment')";
       str_of_int block_start +:+ "," +:+ str_of_int block_end
         +:+ " call NERDComment(1, '" +:+ comment_type +:+ "')"] ++
      after /\
    length before = (1 + 2 * text_blocks post)%nat /\
    length after = (2 * text_blocks pre + 1)%nat.
Proof.
  intros Hb block_start block_end comment_type.
  exists (("set ft=" +:+ _language_name VIM_NAME filetype)
            :: script_body filetype (block_end + 1) post),
         (script_body filetype 1 pre ++ ["wq"]).
  split; [|split].
  - rewrite _commenting_script_body, script_body_app. simpl.
    rewrite Hb. simpl. rewrite <- !app_assoc. simpl. do 2 f_equal.
    unfold text_block_commands. fold block_start. fold block_end. simpl.
    do 3 f_equal. unfold comment_type.
    destruct (bool_decide (filetype = "ruby")) eqn:Er.
    + apply bool_decide_eq_true in Er. rewrite orb_true_r.
      by rewrite bool_decide_eq_true_2 by (by right).
    + apply bool_decide_eq_false in Er. rewrite orb_false_r.
      destruct (block_end - block_start <? 1) eqn:El.
      * apply Z.ltb_lt in El. rewrite bool_decide_eq_true_2; [done|].
        left. unfold block_end in El. lia.
      * apply Z.ltb_ge in El. rewrite bool_decide_eq_false_2; [done|].
        intros [H | H]; [unfold block_end in El; lia | done].
  - simpl. by rewrite script_body_length.
  - rewrite length_app, script_body_length. simpl. lia.
Qed.

Lemma commenting_script_block_witness :
  (0, [(0, "two"); (0, "lines")]).1 = 0 /\
  exists before after,
    _commenting_script ∅
      ([(0, [(0, "intro")]); (1, [(1, " code")])]
         ++ (0, [(0, "two"); (0, "lines")]) :: [(1, [(1, " more")])])
      "python" =
    before ++
    ["3,4 call NERDComment(1, 'uncomment')"; "3,4 call NERDComment(1, 'sexy')"] ++
    after /\
    length before = 1%nat /\ length after = 3%nat.
Proof.
  split; [reflexivity|].
  exact (commenting_script_block ∅ "python"
           [(0, [(0, "intro")]); (1, [(1, " code")])] [(1, [(1, " more")])]
           (0, [(0, "two"); (0, "lines")]) eq_refl).
Defined.

(** ** Edge cases of _beautify *)

(** Replaces the lines of a closed text by their value. *)
Ltac compute_text_lines :=
  match goal with
  | |- context [text_lines ?t] =>
      let l := eval vm_compute in (text_lines t) in
      replace (text_lines t) with l by (vm_compute; reflexivity)
  end.

Lemma string_rev_app_snoc (s acc : string) (c : ascii) :
  String.rev_app (s +:+ String c "") acc = String c (String.rev_app s acc).
Proof.
  revert acc. induction s as [|a s IH]; intros acc; [done|]. simpl. apply IH.
Qed.

Lemma string_rev_snoc (s : string) (c : ascii) :
  String.rev (s +:+ String c "") = String c (String.rev s).
Proof. apply string_rev_app_snoc. Qed.

Lemma endswith_newline_snoc (s : string) :
  endswith (String LF "") (s +:+ String LF "") = true.
Proof.
  unfold endswith. rewrite string_rev_snoc. simpl.
  destruct (ascii_dec LF LF); [by destruct (String.rev s) | congruence].
Qed.

Lemma remove_text_output_newline (text : string) :
  endswith (String LF "") (remove_text_output text) = true.
Proof.
  unfold remove_text_output. cbv zeta.
  set (output := join _ _).
  destruct (endswith (String LF "") output) eqn:E; [exact E|].
  apply endswith_newline_snoc.
Qed.

(** X12. Whatever the text, the answer of the remove-text mode ends with a
    newline; in particular it is never empty. *)
Theorem beautify_remove_text_ends_with_newline
    textwrap_fill vim VIM_NAME (text filetype : string) (add_comments : bool) :
  endswith (String LF "")
    (_beautify textwrap_fill vim VIM_NAME text filetype add_comments true) = true /\
  _beautify textwrap_fill vim VIM_NAME text filetype add_comments true <> "".
Proof.
  rewrite _beautify_remove_text.
  pose proof (remove_text_output_newline text) as H. split; [done|].
  intros E. rewrite E in H. discriminate H.
Qed.

Lemma _cleanup_lines_all_blank (lines : list string) :
  Forall (fun x => strip x = "") lines -> _cleanup_lines lines = [].
Proof.
  intros Hall. rewrite _cleanup_lines_alt. cbv zeta.
  rewrite first_nonblank_all_blank; [done|].
  eapply Forall_impl; [exact Hall|]. intros x E. by apply bool_decide_eq_true.
Qed.

(** X13. For a text of blank lines only (the empty text included) the
    cleanup pass leaves no line: the remove-text mode answers with a single
    newline, the passthrough mode with the empty string, and the comment
    mode runs vim on an empty file with a script of the file type command
    and [wq] alone. *)
Theorem beautify_blank_text textwrap_fill vim VIM_NAME (text filetype : string) :
  Forall (fun line => strip line = "") (text_lines text) ->
  (forall add_comments,
     _beautify textwrap_fill vim VIM_NAME text filetype add_comments true =
     String LF "") /\
  _beautify textwrap_fill vim VIM_NAME text filetype false false = "" /\
  _beautify textwrap_fill vim VIM_NAME text filetype true false =
    vim ("set ft=" +:+ _language_name VIM_NAME filetype +:+ String LF "wq") "".
Proof.
  intros Hblank. apply _cleanup_lines_all_blank in Hblank.
  split; [|split].
  - intros add_comments. rewrite _beautify_remove_text.
    unfold remove_text_output. cbv zeta. by rewrite Hblank.
  - unfold _beautify. cbv zeta. by rewrite Hblank.
  - unfold _beautify. cbv zeta. by rewrite Hblank.
Qed.

Lemma beautify_blank_text_witness :
  Forall (fun line => strip line = "")
         (text_lines ("  " +:+ String LF (String LF " "))) /\
  _beautify fill_keeps vim_leaves_file ∅ ("  " +:+ String LF (String LF " "))
            "python" false true = String LF "".
Proof.
  assert (H : Forall (fun line => strip line = "")
                     (text_lines ("  " +:+ String LF (String LF " ")))).
  { compute_text_lines. repeat constructor. }
  split; [exact H|].
  exact (proj1 (beautify_blank_text fill_keeps vim_leaves_file ∅
                  ("  " +:+ String LF (String LF " ")) "python" H) false).
Defined.

Lemma filter_code_zip_text (n : nat) (l : list string) :
  filter (fun line : Z * string => line.1 = 1) (zip (replicate n 0) l) = [].
Proof.
  revert l. induction n as [|n IH]; intros [|x l]; try done.
  simpl. rewrite filter_cons. case_decide; [done | apply IH].
Qed.

Lemma _classify_lines_cleaned_no_code (lines : list string) :
  Forall (fun line => _line_type line <> 1) lines ->
  _classify_lines (_cleanup_lines lines) =
  replicate (length (_cleanup_lines lines)) 0.
Proof.
  intros Hlines.
  assert (Hc : Forall (fun line => _line_type line <> 1) (_cleanup_lines lines)).
  { apply Forall_forall. intros x Hx.
    apply (proj2 (_cleanup_lines_bounds lines)) in Hx as [Hx | ->]; [|done].
    rewrite Forall_forall in Hlines. by apply Hlines. }
  destruct (_cleanup_lines_clean lines) as (_ & Hh & _).
  destruct (_cleanup_lines lines) as [|x cleaned] eqn:E; [done|].
  apply _classify_lines_no_code; [done|].
  apply Exists_cons_hd.
  specialize (Hh x eq_refl). unfold is_blank in Hh.
  apply bool_decide_eq_false in Hh. rewrite <- _line_type_blank_iff in Hh.
  apply Forall_cons in Hc as [Hx _].
  destruct (_line_type_open x) as [? | [? | ?]]; done.
Qed.

(** X14. For a text without a line of code (no line that the per-line rule
    types as code) the remove-text mode answers with a single newline:
    every line is labelled TEXT and dropped. *)
Theorem beautify_remove_text_without_code
    textwrap_fill vim VIM_NAME (text filetype : string) (add_comments : bool) :
  Forall (fun line => _line_type line <> 1) (text_lines text) ->
  _beautify textwrap_fill vim VIM_NAME text filetype add_comments true =
  String LF "".
Proof.
  intros Hlines. rewrite _beautify_remove_text.
  unfold remove_text_output. cbv zeta.
  by rewrite (_classify_lines_cleaned_no_code _ Hlines), filter_code_zip_text.
Qed.

Lemma beautify_remove_text_without_code_witness :
  Forall (fun line => _line_type line <> 1)
         (text_lines ("A note." +:+ String LF (String LF "  * an item"))) /\
  _beautify fill_keeps vim_leaves_file ∅
            ("A note." +:+ String LF (String LF "  * an item"))
            "python" false true = String LF "".
Proof.
  assert (H : Forall (fun line => _line_type line <> 1)
         (text_lines ("A note." +:+ String LF (String LF "  * an item")))).
  { compute_text_lines. repeat constructor; by vm_compute. }
  split; [exact H|].
  exact (beautify_remove_text_without_code fill_keeps vim_leaves_file ∅
           ("A note." +:+ String LF (String LF "  * an item")) "python" false H).
Defined.

(** ** What code_blocks returns *)

(** The lines of a document, each ended by a newline, in one string. *)
Definition unlines (lines : list string) : string :=
  join "" (map (fun x => x +:+ String LF "") lines).

Lemma string_app_assoc (a b c : string) : (a +:+ b) +:+ c = a +:+ (b +:+ c).
Proof.
  induction a as [|x a IH]; [done|].
  change (String x ((a +:+ b) +:+ c) = String x (a +:+ (b +:+ c))).
  by rewrite IH.
Qed.

Lemma string_app_nil_r (a : string) : a +:+ "" = a.
Proof.
  induction a as [|x a IH]; [done|].
  change (String x (a +:+ "") = String x a). by rewrite IH.
Qed.

Lemma join_empty_cons (x : string) (xs : list string) :
  join "" (x :: xs) = x +:+ join "" xs.
Proof.
  unfold join. destruct xs as [|y xs]; [by rewrite string_app_nil_r | done].
Qed.

Lemma join_empty_app (l1 l2 : list string) :
  join "" (l1 ++ l2) = join "" l1 +:+ join "" l2.
Proof.
  induction l1 as [|x l1 IH]; [done|].
  rewrite <- app_comm_cons, !join_empty_cons, IH. by rewrite string_app_assoc.
Qed.

Lemma unlines_app (l1 l2 : list string) :
  unlines (l1 ++ l2) = unlines l1 +:+ unlines l2.
Proof. unfold unlines. by rewrite map_app, join_empty_app. Qed.

Lemma join_newline_unlines (l : list string) :
  l <> [] -> join (String LF "") l +:+ String LF "" = unlines l.
Proof.
  induction l as [|x l IH]; [done|]. intros _.
  destruct l as [|y l].
  { unfold unlines. simpl. done. }
  change (join (String LF "") (x :: y :: l))
    with (x +:+ String LF "" +:+ join (String LF "") (y :: l)).
  rewrite !string_app_assoc, IH by done.
  unfold unlines. change (map ?f (x :: ?k)) with (f x :: map f k).
  by rewrite join_empty_cons, string_app_assoc.
Qed.

Lemma blocks_text_unlines (gs : list (Z * list (Z * string))) :
  Forall (fun b : Z * list (Z * string) => b.2 <> []) gs ->
  join "" (map (fun x : Z * list (Z * string) =>
                  join (String LF "") (map snd x.2) +:+ String LF "") gs) =
  unlines (map snd (concat (map snd gs))).
Proof.
  induction 1 as [|g gs Hg _ IH]; [done|].
  change (map ?f (g :: ?k)) with (f g :: map f k).
  rewrite join_empty_cons, IH. simpl.
  rewrite map_app, unlines_app. f_equal.
  apply join_newline_unlines. by destruct g.2.
Qed.

Lemma _classify_lines_final (lines : list string) :
  Forall final_label (_classify_lines lines).
Proof.
  unfold _classify_lines.
  assert (H0 : Forall open_label (map _line_type lines)).
  { apply List.Forall_map, Forall_forall. intros x _. apply _line_type_open. }
  destruct (pass2_open _ H0) as [H1 _].
  pose proof (pass3_body_open _ H1) as H2. rewrite <- pass3_eq in H2.
  apply List.Forall_map. eapply Forall_impl; [exact H2|].
  intros x [-> | [-> | ->]]; unfold final_label; simpl; auto.
Qed.

Lemma classified_lines_snd (lines : list string) :
  map snd (zip (_classify_lines lines) lines) = lines.
Proof.
  change (map snd ?l) with (l.*2). apply snd_zip.
  by rewrite _classify_lines_length.
Qed.

(** X15. Without reflow [code_blocks] loses nothing: the texts of its
    blocks, one after the other, are the lines of the text joined with
    newlines and ended by one (and nothing for a text without lines). *)
Theorem code_blocks_concat textwrap_fill (text : string) (unindent_code : py_flag) :
  join "" (map snd (code_blocks textwrap_fill text false unindent_code)) =
  if bool_decide (text_lines text = []) then ""
  else join (String LF "") (text_lines text) +:+ String LF "".
Proof.
  unfold code_blocks, lines_blocks_answer. cbv zeta.
  rewrite map_map. simpl.
  rewrite blocks_text_unlines.
  - rewrite (concat_groupby Z.eqb fst), classified_lines_snd.
    case_bool_decide as E; [by rewrite E|]. by rewrite join_newline_unlines.
  - eapply Forall_impl; [apply (groupby_groups Z.eqb fst Z.eqb_eq)|].
    by intros g [Hg _].
Qed.

Lemma groupby_nil {A K : Type} (eqb : K -> K -> bool) (key : A -> K) (l : list A) :
  groupby eqb key l = [] -> l = [].
Proof.
  destruct l as [|x l]; [done|].
  destruct (groupby_head eqb key x l) as (g & gs & ->). done.
Qed.

Lemma splitlines_nil (s : string) : splitlines s = [] <-> s = "".
Proof.
  split; [|by intros ->].
  destruct s as [|c s]; [done|]. simpl.
  destruct (Ascii.eqb c CR).
  { destruct s as [|c' s]; [done|]. by destruct (Ascii.eqb c' LF). }
  destruct (Ascii.eqb c LF); [done|]. by destruct (splitlines s).
Qed.

(** X16. Without reflow [code_blocks] returns no block exactly for the
    empty text. *)
Theorem code_blocks_empty textwrap_fill (text : string) (unindent_code : py_flag) :
  code_blocks textwrap_fill text false unindent_code = [] <-> text = "".
Proof.
  split; [|by intros ->].
  unfold code_blocks, lines_blocks_answer. cbv zeta. intros H.
  apply map_eq_nil, groupby_nil in H.
  apply (f_equal (map snd)) in H. rewrite classified_lines_snd in H.
  unfold text_lines in H. apply map_eq_nil in H. by apply splitlines_nil.
Qed.

Lemma groupby_group_labels (lc : list (Z * string)) (g : Z * list (Z * string)) :
  Forall (fun x : Z * string => final_label x.1) lc ->
  g ∈ groupby Z.eqb fst lc -> final_label g.1.
Proof.
  intros Hlc Hg.
  pose proof (groupby_groups Z.eqb fst Z.eqb_eq lc) as Hgs.
  rewrite Forall_forall in Hgs. destruct (Hgs g Hg) as [Hne Hkey].
  destruct g.2 as [|x xs] eqn:E; [done|].
  apply Forall_cons in Hkey as [<- _].
  rewrite Forall_forall in Hlc. apply Hlc.
  rewrite <- (concat_groupby Z.eqb fst lc).
  apply list_elem_of_In, in_concat. exists g.2. split.
  - apply in_map, list_elem_of_In, Hg.
  - rewrite E. by left.
Qed.

Lemma code_blocks_lines_labels textwrap_fill (text : string) (wrap_lines : bool)
    (unindent_code : py_flag) :
  let lines := text_lines text in
  let lines_classes := zip (_classify_lines lines) lines in
  Forall (fun x : Z * string => final_label x.1)
    (if wrap_lines then _wrap_lines textwrap_fill lines_classes unindent_code
     else lines_classes).
Proof.
  intros lines lines_classes.
  assert (Hz : Forall (fun x : Z * string => final_label x.1) lines_classes).
  { apply Forall_forall. intros [k line] Hx. simpl.
    apply elem_of_zip_l in Hx.
    pose proof (_classify_lines_final lines) as Hf.
    rewrite Forall_forall in Hf. by apply Hf. }
  destruct wrap_lines; [|done].
  apply Forall_forall. intros y Hy.
  apply _wrap_lines_labels in Hy as (x & Hx & ->).
  rewrite Forall_forall in Hz. by apply Hz.
Qed.

(** X17. With or without reflow, every block of [code_blocks] is labelled
    TEXT (0) or CODE (1) and its text ends with a newline, and the labels
    alternate from one block to the next. *)
Theorem code_blocks_alternate textwrap_fill (text : string) (wrap_lines : bool)
    (unindent_code : py_flag) :
  (forall b, b ∈ code_blocks textwrap_fill text wrap_lines unindent_code ->
     (b.1 = 0 \/ b.1 = 1) /\ endswith (String LF "") b.2 = true) /\
  (forall i a b,
     code_blocks textwrap_fill text wrap_lines unindent_code !! i = Some a ->
     code_blocks textwrap_fill text wrap_lines unindent_code !! S i = Some b ->
     a.1 + b.1 = 1).
Proof.
  pose proof (code_blocks_lines_labels textwrap_fill text wrap_lines unindent_code)
    as Hlc. cbv zeta in Hlc.
  unfold code_blocks, lines_blocks_answer. cbv zeta.
  set (lc := if wrap_lines then _ else _) in *.
  change (map ?f ?k) with (f <$> k).
  split.
  - intros b Hb. apply list_elem_of_fmap in Hb as (g & -> & Hg). simpl.
    split; [exact (groupby_group_labels lc g Hlc Hg) | apply endswith_newline_snoc].
  - intros i a b. rewrite !list_lookup_fmap.
    destruct (groupby Z.eqb fst lc !! i) as [ga|] eqn:Ea; [|done].
    destruct (groupby Z.eqb fst lc !! S i) as [gb|] eqn:Eb; [|done].
    simpl. intros [= <-] [= <-]. simpl.
    pose proof (groupby_adjacent Z.eqb fst Z.eqb_eq _ _ _ _ Ea Eb) as Hne.
    pose proof (groupby_group_labels lc ga Hlc (list_elem_of_lookup_2 _ _ _ Ea)) as Ha.
    pose proof (groupby_group_labels lc gb Hlc (list_elem_of_lookup_2 _ _ _ Eb)) as Hb.
    unfold final_label in *. lia.
Qed.

(** ** The lines of a text *)

(** Whether a string holds a character that [p] accepts. *)
Fixpoint has_char (p : ascii -> bool) (s : string) : bool :=
  match s with
  | EmptyString => false
  | String c s' => p c || has_char p s'
  end.

Definition is_break (c : ascii) : bool := Ascii.eqb c LF || Ascii.eqb c CR.

Lemma rstrip_by_no_char (p : ascii -> bool) (s : string) :
  has_char p s = false -> rstrip_by p s = s.
Proof.
  induction s as [|c s IH]; [done|]. simpl.
  intros [Hc Hs]%orb_false_elim. rewrite (IH Hs), Hc. by destruct s.
Qed.

Lemma splitlines_no_break_bounded (n : nat) (s : string) :
  (String.length s <= n)%nat ->
  Forall (fun line => has_char is_break line = false) (splitlines s).
Proof.
  revert s. induction n as [|n IH]; intros s Hn.
  { destruct s; [constructor | simpl in Hn; lia]. }
  destruct s as [|c s]; [constructor|]. simpl in Hn. simpl.
  destruct (Ascii.eqb c CR) eqn:Ecr.
  { destruct s as [|c' s]; [by repeat constructor|].
    destruct (Ascii.eqb c' LF).
    - constructor; [done|]. apply IH. simpl in Hn. lia.
    - constructor; [done|]. apply IH. lia. }
  destruct (Ascii.eqb c LF) eqn:Elf.
  { constructor; [done|]. apply IH. lia. }
  assert (Hc : is_break c = false) by (unfold is_break; by rewrite Elf, Ecr).
  specialize (IH s ltac:(lia)).
  destruct (splitlines s) as [|l ls]; [repeat constructor; simpl; by rewrite Hc|].
  apply Forall_cons in IH as [Hl Hls].
  constructor; [simpl; by rewrite Hc, Hl | done].
Qed.

(** X18. The lines [_beautify] and [code_blocks] work on hold no line break
    (neither \n nor \r), so the [rstrip('\n')] applied to every line changes
    nothing: the lines are those of [splitlines]. *)
Theorem text_lines_no_break (text : string) :
  text_lines text = splitlines text /\
  Forall (fun line => has_char is_break line = false) (text_lines text).
Proof.
  pose proof (splitlines_no_break_bounded (String.length text) text (le_n _)) as H.
  assert (E : text_lines text = splitlines text).
  { unfold text_lines. rewrite <- (map_id (splitlines text)) at 2.
    apply map_ext_Forall. eapply Forall_impl; [exact H|].
    intros line Hline. apply rstrip_by_no_char.
    induction line as [|c line IH]; [done|]. simpl in *.
    apply orb_false_elim in Hline as [Hc Hl]. rewrite (IH Hl), orb_false_r.
    apply bool_decide_eq_false. intros ->%list_elem_of_singleton.
    unfold is_break in Hc. by rewrite Ascii.eqb_refl in Hc. }
  split; [exact E | by rewrite E].
Qed.

(** ** The cache of beautify *)

(** The value of a flag in an options dictionary. *)
Definition flag (options : gmap string bool) (key : string) : bool :=
  default false (options !! key).

Lemma beautify_memory_miss textwrap_fill vim VIM_NAME md5_hexdigest
    (text lang : string) (options : gmap string bool)
    (store : gmap string string) :
  beauty_options_of options <> ∅ ->
  str_truthy (store !! cache_key md5_hexdigest text lang options) = false ->
  beautify textwrap_fill vim VIM_NAME md5_hexdigest memory_redis text lang
           (Some options) store =
  (Ok (_beautify textwrap_fill vim VIM_NAME text lang
         (flag options "add_comments") (flag options "remove_text")),
   <[cache_key md5_hexdigest text lang options :=
       _beautify textwrap_fill vim VIM_NAME text lang
         (flag options "add_comments") (flag options "remove_text")]> store).
Proof.
  intros Hopts Hmiss.
  rewrite beautify_unfold, bool_decide_eq_false_2 by done.
  simpl. by rewrite Hmiss.
Qed.

(** X19. With a cache kept in memory and no answer stored for the call,
    [beautify] computes the answer with [_beautify] and stores it under the
    key of the call; the same call on the store it leaves returns the same
    answer and leaves that store as it is. *)
Theorem beautify_memory_round_trip textwrap_fill vim VIM_NAME md5_hexdigest
    (text lang : string) (options : gmap string bool)
    (store : gmap string string) :
  beauty_options_of options <> ∅ ->
  store !! cache_key md5_hexdigest text lang options = None ->
  let answer :=
    _beautify textwrap_fill vim VIM_NAME text lang
      (flag options "add_comments") (flag options "remove_text") in
  let store' := <[cache_key md5_hexdigest text lang options := answer]> store in
  beautify textwrap_fill vim VIM_NAME md5_hexdigest memory_redis text lang
           (Some options) store = (Ok answer, store') /\
  beautify textwrap_fill vim VIM_NAME md5_hexdigest memory_redis text lang
           (Some options) store' = (Ok answer, store').
Proof.
  intros Hopts Hcold answer store'. split.
  - apply beautify_memory_miss; [done|]. by rewrite Hcold.
  - destruct (str_truthy (Some answer)) eqn:E.
    + rewrite beautify_unfold, bool_decide_eq_false_2 by done.
      simpl. unfold store'. rewrite lookup_insert_eq. fold answer.
      by rewrite E.
    + rewrite beautify_memory_miss; [|done|].
      * fold answer. unfold store'. by rewrite insert_insert_eq.
      * unfold store'. by rewrite lookup_insert_eq.
Qed.

Lemma beautify_memory_round_trip_witness :
  beauty_options_of {["remove_text" := true]} <> ∅ /\
  (∅ : gmap string string)
    !! cache_key md5_stub remove_text_example "python" {["remove_text" := true]}
    = None /\
  beautify fill_keeps vim_leaves_file ∅ md5_stub memory_redis remove_text_example
           "python" (Some {["remove_text" := true]}) ∅ =
  (Ok (_beautify fill_keeps vim_leaves_file ∅ remove_text_example "python"
         (flag {["remove_text" := true]} "add_comments")
         (flag {["remove_text" := true]} "remove_text")),
   <[cache_key md5_stub remove_text_example "python" {["remove_text" := true]} :=
       _beautify fill_keeps vim_leaves_file ∅ remove_text_example "python"
         (flag {["remove_text" := true]} "add_comments")
         (flag {["remove_text" := true]} "remove_text")]> ∅).
Proof.
  split; [exact remove_text_option_kept|]. split; [reflexivity|].
  exact (proj1 (beautify_memory_round_trip fill_keeps vim_leaves_file ∅ md5_stub
                  remove_text_example "python" {["remove_text" := true]} ∅
                  remove_text_option_kept eq_refl)).
Defined.

(** X20. A stored answer is trusted: when the cache holds a non-empty
    string under the key of the call, [beautify] returns it as it is,
    without calling [_beautify] and without writing to the cache. *)
Theorem beautify_cache_hit {St : Type}
    textwrap_fill vim VIM_NAME md5_hexdigest (REDIS : redis_client St)
    (text lang : string) (options : gmap string bool) (store : St)
    (cached : string) :
  beauty_options_of options <> ∅ ->
  redis_get REDIS (cache_key md5_hexdigest text lang options) store
    = Ok (Some cached) ->
  cached <> "" ->
  forall textwrap_fill' vim' VIM_NAME',
    beautify textwrap_fill vim VIM_NAME md5_hexdigest REDIS text lang
             (Some options) store = (Ok cached, store) /\
    beautify textwrap_fill' vim' VIM_NAME' md5_hexdigest REDIS text lang
             (Some options) store = (Ok cached, store).
Proof.
  intros Hopts Hget Hne textwrap_fill' vim' VIM_NAME'.
  rewrite !beautify_unfold, !bool_decide_eq_false_2 by done.
  rewrite Hget. simpl. by rewrite bool_decide_eq_false_2 by done.
Qed.

Lemma beautify_cache_hit_witness :
  beauty_options_of {["remove_text" := true]} <> ∅ /\
  redis_get memory_redis (cache_key md5_stub "x = 1" "python" {["remove_text" := true]})
    {[cache_key md5_stub "x = 1" "python" {["remove_text" := true]} := "stale"]}
    = Ok (Some "stale") /\
  "stale" <> "" /\
  beautify fill_keeps vim_leaves_file ∅ md5_stub memory_redis "x = 1" "python"
    (Some {["remove_text" := true]})
    {[cache_key md5_stub "x = 1" "python" {["remove_text" := true]} := "stale"]} =
  (Ok "stale",
   {[cache_key md5_stub "x = 1" "python" {["remove_text" := true]} := "stale"]}).
Proof.
  assert (Hget : redis_get memory_redis
    (cache_key md5_stub "x = 1" "python" {["remove_text" := true]})
    {[cache_key md5_stub "x = 1" "python" {["remove_text" := true]} := "stale"]}
    = Ok (Some "stale")).
  { simpl. by rewrite lookup_singleton_eq. }
  split; [exact remove_text_option_kept|]. split; [exact Hget|].
  split; [discriminate|].
  exact (proj1 (beautify_cache_hit fill_keeps vim_leaves_file ∅ md5_stub
                  memory_redis "x = 1" "python" {["remove_text" := true]} _ "stale"
                  remove_text_option_kept Hget ltac:(discriminate)
                  fill_keeps vim_leaves_file ∅)).
Defined.

Lemma cache_key_flags (md5_hexdigest : string -> string) (text lang : string)
    (options : gmap string bool) :
  cache_key md5_hexdigest text lang options =
  "t:" +:+ md5_hexdigest text +:+ ":" +:+ lang +:+ ":" +:+
  ((if flag options "add_comments" then "c" else "") +:+
   (if flag options "remove_text" then "q" else "")).
Proof.
  unfold cache_key, flag. cbv zeta.
  rewrite !beauty_options_lookup by (unfold beauty_keys; set_solver).
  by destruct (default false (options !! "add_comments")),
              (default false (options !! "remove_text")).
Qed.

(** X21. For one text and one language the cache key tells the modes apart
    and nothing else: two options dictionaries get the same key exactly when
    they agree on the truth of [add_comments] and of [remove_text]. *)
Theorem cache_key_modes (md5_hexdigest : string -> string) (text lang : string)
    (options1 options2 : gmap string bool) :
  cache_key md5_hexdigest text lang options1 =
  cache_key md5_hexdigest text lang options2 <->
  flag options1 "add_comments" = flag options2 "add_comments" /\
  flag options1 "remove_text" = flag options2 "remove_text".
Proof.
  rewrite !cache_key_flags. split.
  - intros H. do 5 apply String.app_inj in H.
    by destruct (flag options1 "add_comments"), (flag options2 "add_comments"),
                (flag options1 "remove_text"), (flag options2 "remove_text").
  - by intros [-> ->].
Qed.

(** ** __main__

    The command line entry point: the text is read from standard input,
    [sys.argv[1]] is the file type and [sys.argv[2]] selects the options in a
    dictionary of four modes; the result is written to standard output,
    after what [_beautify] has printed there. *)

(** An exception that [beautify] lets through carries what had been written
    to standard output before it. *)
Inductive main_exn : Type :=
  | IndexError
  | KeyError (key : string)
  | Uncaught (e : exn) (printed : string).

(** The dictionary literal of [__main__]. *)
Definition main_modes : gmap string (gmap string bool) :=
  <["" := ∅]>
    (<["c" := {["add_comments" := true]}]>
       (<["C" := {["add_comments" := false]}]>
          (<["q" := {["remove_text" := true]}]> ∅))).

(** [print unindent_code] of [_beautify]: the truth value of
    [add_comments or remove_text] and a newline, on standard output. *)
Definition _beautify_prints (add_comments remove_text : bool) : string :=
  (if add_comments || remove_text then "True" else "False") +:+ String LF "".

(** What a call of [beautify] writes to standard output: the line of
    [_beautify] when [beautify] calls it, that is after a lookup that
    returns no answer; nothing on the early return, on a cache hit and when
    the lookup raises. *)
Definition beautify_prints {St : Type} (md5_hexdigest : string -> string)
    (REDIS : redis_client St)
    (text lang : string) (options : option (gmap string bool)) (store : St)
    : string :=
  let options := default ∅ options in
  let beauty_options := beauty_options_of options in
  if bool_decide (beauty_options = ∅) then ""
  else
    match redis_get REDIS (cache_key md5_hexdigest text lang options) store with
    | Raise _ => ""
    | Ok answer =>
        if str_truthy answer then ""
        else _beautify_prints
               (default false (beauty_options !! "add_comments"))
               (default false (beauty_options !! "remove_text"))
    end.

(** The outcome is all that is written to standard output (the line
    printed by [_beautify], then the result), or the exception that ends the
    process, with the store of the cache. *)
Definition __main__ {St : Type}
    (textwrap_fill : string -> string) (vim : string -> string -> string)
    (VIM_NAME : gmap string string) (md5_hexdigest : string -> string)
    (REDIS : redis_client St)
    (stdin : string) (argv : list string) (store : St)
    : (main_exn + string) * St :=
  let text := stdin in
  match argv !! 1%nat with
  | None => (inl IndexError, store)
  | Some filetype =>
      match argv !! 2%nat with
      | None => (inl IndexError, store)
      | Some mode =>
          match main_modes !! mode with
          | None => (inl (KeyError mode), store)
          | Some options =>
              let printed :=
                beautify_prints md5_hexdigest REDIS text filetype
                                (Some options) store in
              match beautify textwrap_fill vim VIM_NAME md5_hexdigest REDIS
                             text filetype (Some options) store with
              | (Ok result, store') => (inr (printed +:+ result), store')
              | (Raise e, store') => (inl (Uncaught e printed), store')
              end
          end
      end
  end.

(** X22. Called with the empty mode, the command writes its input back
    unchanged and does not touch the cache, whatever the file type; called
    with fewer than two arguments after the program name it ends with an
    IndexError. *)
Theorem main_empty_mode {St : Type}
    textwrap_fill vim VIM_NAME md5_hexdigest (REDIS : redis_client St)
    (stdin prog filetype : string) (store : St) :
  __main__ textwrap_fill vim VIM_NAME md5_hexdigest REDIS stdin
           [prog; filetype; ""] store = (inr stdin, store) /\
  __main__ textwrap_fill vim VIM_NAME md5_hexdigest REDIS stdin
           [prog; filetype] store = (inl IndexError, store) /\
  __main__ textwrap_fill vim VIM_NAME md5_hexdigest REDIS stdin
           [prog] store = (inl IndexError, store) /\
  __main__ textwrap_fill vim VIM_NAME md5_hexdigest REDIS stdin
           [] store = (inl IndexError, store).
Proof. repeat split; reflexivity. Qed.

(** X23. A mode other than the four of the dictionary ends the command with
    a KeyError for that mode, before the cache is looked up or written. *)
Theorem main_unknown_mode {St : Type}
    textwrap_fill vim VIM_NAME md5_hexdigest (REDIS : redis_client St)
    (stdin prog filetype mode : string) (rest : list string) (store : St) :
  mode ∉ [""; "c"; "C"; "q"] ->
  __main__ textwrap_fill vim VIM_NAME md5_hexdigest REDIS stdin
           (prog :: filetype :: mode :: rest) store = (inl (KeyError mode), store).
Proof.
  intros Hmode. unfold __main__. simpl.
  assert (Hnone : main_modes !! mode = None).
  { unfold main_modes.
    rewrite !lookup_insert_ne, lookup_empty; [done | | | |];
      intros <-; apply Hmode; set_solver. }
  by rewrite Hnone.
Qed.

Lemma main_unknown_mode_witness :
  ("x" ∉ [""; "c"; "C"; "q"]) /\
  __main__ fill_keeps vim_leaves_file ∅ md5_stub unreachable_redis "text"
           ["beautifier.py"; "python"; "x"] tt = (inl (KeyError "x"), tt).
Proof.
  assert (H : "x" ∉ [""; "c"; "C"; "q"]).
  { apply not_elem_of_cons; split; [discriminate|].
    apply not_elem_of_cons; split; [discriminate|].
    apply not_elem_of_cons; split; [discriminate|].
    apply not_elem_of_cons; split; [discriminate|].
    apply not_elem_of_nil. }
  split; [exact H|].
  exact (main_unknown_mode fill_keeps vim_leaves_file ∅ md5_stub unreachable_redis
           "text" "beautifier.py" "python" "x" [] tt H).
Defined.

Lemma beautify_prints_memory_miss md5_hexdigest
    (text lang : string) (options : gmap string bool)
    (store : gmap string string) :
  beauty_options_of options <> ∅ ->
  str_truthy (store !! cache_key md5_hexdigest text lang options) = false ->
  beautify_prints md5_hexdigest memory_redis text lang (Some options) store =
  _beautify_prints (flag options "add_comments") (flag options "remove_text").
Proof.
  intros Hopts Hmiss. unfold beautify_prints, flag. cbv zeta.
  change (default ∅ (Some options)) with options.
  rewrite bool_decide_eq_false_2 by done.
  rewrite !beauty_options_lookup by (unfold beauty_keys; set_solver).
  simpl. by rewrite Hmiss.
Qed.

(** X24. The modes [c], [C] and [q] call [beautify] with the options
    [add_comments] set, [add_comments] unset and [remove_text] set.  With a
    cold cache in memory, standard output receives the line that
    [_beautify] prints ([True] for [c] and [q], [False] for [C]) and then the
    comment, passthrough and remove-text answer of [_beautify]; the answer
    alone, without that line, is stored under the key of the mode [c], of
    the empty mode and of [q]. *)
Theorem main_modes_answers textwrap_fill vim VIM_NAME md5_hexdigest
    (stdin prog filetype : string) :
  __main__ textwrap_fill vim VIM_NAME md5_hexdigest memory_redis stdin
           [prog; filetype; "c"] ∅ =
    (inr ("True" +:+ String LF "" +:+
          _beautify textwrap_fill vim VIM_NAME stdin filetype true false),
     {["t:" +:+ md5_hexdigest stdin +:+ ":" +:+ filetype +:+ ":c" :=
         _beautify textwrap_fill vim VIM_NAME stdin filetype true false]}) /\
  __main__ textwrap_fill vim VIM_NAME md5_hexdigest memory_redis stdin
           [prog; filetype; "C"] ∅ =
    (inr ("False" +:+ String LF "" +:+
          _beautify textwrap_fill vim VIM_NAME stdin filetype false false),
     {["t:" +:+ md5_hexdigest stdin +:+ ":" +:+ filetype +:+ ":" :=
         _beautify textwrap_fill vim VIM_NAME stdin filetype false false]}) /\
  __main__ textwrap_fill vim VIM_NAME md5_hexdigest memory_redis stdin
           [prog; filetype; "q"] ∅ =
    (inr ("True" +:+ String LF "" +:+
          _beautify textwrap_fill vim VIM_NAME stdin filetype false true),
     {["t:" +:+ md5_hexdigest stdin +:+ ":" +:+ filetype +:+ ":q" :=
         _beautify textwrap_fill vim VIM_NAME stdin filetype false true]}).
Proof.
  assert (Hc : beauty_options_of {["add_comments" := true]} <> ∅).
  { apply (bool_decide_eq_false_1 (beauty_options_of {["add_comments" := true]} = ∅)).
    vm_compute. reflexivity. }
  assert (Mc : main_modes !! "c" = Some {["add_comments" := true]})
    by (vm_compute; reflexivity).
  assert (MC : main_modes !! "C" = Some {["add_comments" := false]})
    by (vm_compute; reflexivity).
  assert (Mq : main_modes !! "q" = Some {["remove_text" := true]})
    by (vm_compute; reflexivity).
  unfold __main__. cbn [lookup list_lookup]. rewrite Mc, MC, Mq. cbv zeta.
  rewrite (beautify_memory_miss _ _ _ _ _ _ {["add_comments" := true]} ∅ Hc)
    by (by rewrite lookup_empty).
  rewrite (beautify_memory_miss _ _ _ _ _ _ {["add_comments" := false]} ∅
             add_comments_false_option_kept) by (by rewrite lookup_empty).
  rewrite (beautify_memory_miss _ _ _ _ _ _ {["remove_text" := true]} ∅
             remove_text_option_kept) by (by rewrite lookup_empty).
  rewrite (beautify_prints_memory_miss _ _ _ {["add_comments" := true]} ∅ Hc)
    by (by rewrite lookup_empty).
  rewrite (beautify_prints_memory_miss _ _ _ {["add_comments" := false]} ∅
             add_comments_false_option_kept) by (by rewrite lookup_empty).
  rewrite (beautify_prints_memory_miss _ _ _ {["remove_text" := true]} ∅
             remove_text_option_kept) by (by rewrite lookup_empty).
  rewrite !cache_key_flags.
  repeat split.
Qed.


(** ** Passthrough of a document without text *)

Lemma _wrap_lines_all_code textwrap_fill (u : py_flag) (lines : list string) :
  _wrap_lines textwrap_fill (zip (replicate (length lines) 1) lines) u =
  map (fun line => (1, _unindent_code line (unindent_shift u))) lines.
Proof.
  induction lines as [|line lines IH]; [done|].
  change (zip (replicate (length (line :: lines)) 1) (line :: lines))
    with ((1, line) :: zip (replicate (length lines) 1) lines).
  by rewrite _wrap_lines_cons, wrap_line_code, IH.
Qed.

(** X25. For a text without a text line (every line is blank or code) the
    passthrough mode never calls [textwrap.fill]: its answer is the cleaned
    lines joined with newlines, every line but the empty ones with one more
    leading space. *)
Theorem beautify_passthrough_without_text
    textwrap_fill vim VIM_NAME (text filetype : string) :
  Forall (fun line => _line_type line <> 0) (text_lines text) ->
  _beautify textwrap_fill vim VIM_NAME text filetype false false =
  join (String LF "")
       (map (fun line => if bool_decide (line = "") then "" else " " +:+ line)
            (_cleanup_lines (text_lines text))).
Proof.
  intros Hlines.
  assert (Hc : Forall (fun line => _line_type line <> 0)
                      (_cleanup_lines (text_lines text))).
  { apply Forall_forall. intros x Hx.
    apply (proj2 (_cleanup_lines_bounds (text_lines text))) in Hx as [Hx | ->];
      [|done].
    rewrite Forall_forall in Hlines. by apply Hlines. }
  unfold _beautify. cbv zeta.
  rewrite (_classify_lines_no_text _ Hc), _wrap_lines_all_code, map_map.
  f_equal. apply map_ext. intros line. simpl.
  unfold _unindent_code, unindent_shift. simpl.
  destruct (bool_decide (line = "")) eqn:E; simpl; [|done].
  apply bool_decide_eq_true in E. by subst.
Qed.

Lemma beautify_passthrough_without_text_witness :
  Forall (fun line => _line_type line <> 0)
         (text_lines ("    x = 1" +:+ String LF (String LF "    y = 2"))) /\
  _beautify fill_keeps vim_leaves_file ∅
            ("    x = 1" +:+ String LF (String LF "    y = 2")) "python" false false =
  "     x = 1" +:+ String LF (String LF "     y = 2").
Proof.
  assert (H : Forall (fun line => _line_type line <> 0)
         (text_lines ("    x = 1" +:+ String LF (String LF "    y = 2")))).
  { compute_text_lines. repeat constructor; by vm_compute. }
  split; [exact H|].
  rewrite (beautify_passthrough_without_text fill_keeps vim_leaves_file ∅
             ("    x = 1" +:+ String LF (String LF "    y = 2")) "python" H).
  vm_compute. reflexivity.
Defined.

(** * The stages of the two entry points *)

Lemma text_lines_newline (text : string) :
  text_lines (String LF text) = "" :: text_lines text.
Proof. reflexivity. Qed.

Lemma _cleanup_lines_blank_head (lines : list string) :
  _cleanup_lines ("" :: lines) = _cleanup_lines lines.
Proof. by rewrite !_cleanup_lines_alt. Qed.

Lemma unlines_blank_head (lines : list string) :
  unlines ("" :: lines) = String LF (unlines lines).
Proof.
  unfold unlines. change (map ?f ("" :: ?k)) with (f "" :: map f k).
  by rewrite join_empty_cons.
Qed.

Lemma code_blocks_texts textwrap_fill (text : string) (unindent_code : py_flag) :
  join "" (map snd (code_blocks textwrap_fill text false unindent_code)) =
  unlines (text_lines text).
Proof.
  unfold code_blocks, lines_blocks_answer. cbv zeta.
  rewrite map_map. simpl.
  rewrite blocks_text_unlines.
  - by rewrite (concat_groupby Z.eqb fst), classified_lines_snd.
  - eapply Forall_impl; [apply (groupby_groups Z.eqb fst Z.eqb_eq)|].
    by intros g [Hg _].
Qed.

(** C5, as amended.  [_beautify] runs the three stages (cleanup, classify,
    reflow) in each of its modes, so that a blank line put before the text
    does not change its result.  [code_blocks] runs no cleanup pass: it
    classifies the lines as they are split (and reflows them when
    [wrap_lines] is set), so that a blank line put before the text changes
    its blocks.  With [wrap_lines] set it lists the blocks of the same three
    stages whenever the cleanup pass leaves the lines of the text as they
    are. *)
Theorem entry_points_stages textwrap_fill vim VIM_NAME
    (text filetype : string) (unindent_code : py_flag) :
  _beautify textwrap_fill vim VIM_NAME text filetype false false =
    join (String LF "")
         (map snd (spec_shared_stages textwrap_fill text (PyBool false))) /\
  _beautify textwrap_fill vim VIM_NAME text filetype true false =
    _run_vim_script vim
      (_commenting_script VIM_NAME
         (groupby Z.eqb fst (spec_shared_stages textwrap_fill text (PyBool true)))
         filetype)
      (map snd (spec_shared_stages textwrap_fill text (PyBool true))) /\
  (forall add_comments,
     _beautify textwrap_fill vim VIM_NAME text filetype add_comments true =
     let lines :=
       _cleanup_lines
         (map snd (filter (fun line : Z * string => line.1 = 1)
                          (spec_shared_stages textwrap_fill text (PyBool true)))) in
     let output := join (String LF "") lines in
     if endswith (String LF "") output then output else output +:+ String LF "") /\
  (forall add_comments remove_text,
     _beautify textwrap_fill vim VIM_NAME (String LF text) filetype
               add_comments remove_text =
     _beautify textwrap_fill vim VIM_NAME text filetype add_comments remove_text) /\
  code_blocks textwrap_fill text true unindent_code =
    lines_blocks_answer
      (_wrap_lines textwrap_fill
         (zip (_classify_lines (text_lines text)) (text_lines text))
         unindent_code) /\
  code_blocks textwrap_fill text false unindent_code =
    lines_blocks_answer
      (zip (_classify_lines (text_lines text)) (text_lines text)) /\
  code_blocks textwrap_fill (String LF text) false unindent_code <>
    code_blocks textwrap_fill text false unindent_code /\
  (_cleanup_lines (text_lines text) = text_lines text ->
   code_blocks textwrap_fill text true unindent_code =
     lines_blocks_answer (spec_shared_stages textwrap_fill text unindent_code)).
Proof.
  split; [reflexivity|]. split; [reflexivity|]. split.
  { intros add_comments. unfold _beautify, spec_shared_stages. cbv zeta.
    by rewrite orb_true_r. }
  split.
  { intros add_comments remove_text. unfold _beautify. cbv zeta.
    by rewrite text_lines_newline, _cleanup_lines_blank_head. }
  split; [reflexivity|]. split; [reflexivity|]. split.
  - intros H.
    apply (f_equal (fun l : list (Z * string) =>
                      String.length (join "" (map snd l)))) in H.
    rewrite !code_blocks_texts, text_lines_newline, unlines_blank_head in H.
    simpl in H. lia.
  - intros Hclean. unfold code_blocks, spec_shared_stages. cbv zeta.
    by rewrite Hclean.
Qed.

Lemma entry_points_stages_witness :
  _cleanup_lines (text_lines "    x = 1") = text_lines "    x = 1" /\
  code_blocks fill_keeps "    x = 1" true (PyBool true) =
    lines_blocks_answer (spec_shared_stages fill_keeps "    x = 1" (PyBool true)).
Proof.
  split; [reflexivity|].
  apply (entry_points_stages fill_keeps vim_leaves_file ∅ "    x = 1" "python"
           (PyBool true)).
  reflexivity.
Defined.

(** C5, as stated, fails: on a text that opens with a blank line
    [code_blocks] keeps that line in its first block, which the cleanup pass
    would have removed. *)
Lemma code_blocks_skips_cleanup :
  ~ exists textwrap_fill,
      code_blocks textwrap_fill blank_then_code true (PyBool true) =
      lines_blocks_answer
        (spec_shared_stages textwrap_fill blank_then_code (PyBool true)).
Proof.
  intros (textwrap_fill & H). vm_compute in H. discriminate H.
Qed.
